(** * The travel page generator (scripts/generate-travel.js)

    A shallow embedding of the script that scans the album directories,
    reads the metadata of every photo and fills the page template.

    Conventions of the model.
    - A JavaScript string is kept as the sequence of bytes of its UTF-8
      form, the form in which the file system and the generated page hold
      it.  Strings are compared by their UTF-16 code units, as the
      runtime compares them.  Upper case is the Unicode one, from a
      table; lower case, which only the filter on the extension uses, is
      the ASCII one, which decides that filter as the Unicode one does.
    - A JavaScript number is an IEEE double ([float]).
    - Code that can throw lives in the error monad [Exc]; [try]/[catch]
      is [catch].  Every [await] of the script is sequential, so an
      [async] function is an ordinary function of that monad.
    - The outside world (the metadata decoder, the date formatter of the
      runtime, the file system) is passed in explicitly.
    - Messages printed on the console are not modelled. *)

From Stdlib Require Import String Ascii List ZArith Bool Lia.
From Stdlib Require Import Floats.PrimFloat Sorting.Permutation Sorting.Sorted.
From Stdlib Require Import Numbers.DecimalString Numbers.DecimalNat.
From ExtLib Require Import Structures.Monad Structures.MonadExc.
From ExtLib Require Import Data.Monads.EitherMonad.
Import ListNotations MonadNotation.
Local Open Scope monad_scope.
Local Open Scope string_scope.

(** ** The fragment of the JavaScript runtime the script relies on *)

Module Js.

(** A thrown [Error], identified by its message. *)
Definition Error := string.

(** Computations that either throw or return. *)
Abbreviation Exc := (sum Error).

(** [ToBoolean], the test behind [if (x)], [x && y], [x || y], [x ? a : b]. *)
Class Truthy (A : Type) := ToBoolean : A -> bool.

#[export] Instance Truthy_string : Truthy string :=
  fun s => match s with EmptyString => false | String _ _ => true end.

(** [+0], [-0] and [NaN] are the falsy numbers. *)
#[export] Instance Truthy_number : Truthy float :=
  fun x => negb (is_zero x || is_nan x).

(** A property that is missing reads as [undefined], which is falsy. *)
#[export] Instance Truthy_option {A} `{Truthy A} : Truthy (option A) :=
  fun o => match o with None => false | Some a => ToBoolean a end.

(** [`${x}`] for a value that is a string or [undefined]. *)
Definition ToString (o : option string) : string :=
  match o with Some s => s | None => "undefined" end.

(** The double quote, and a helper to write markup literals: the markup of
    the script holds no apostrophe, so a literal is written here with
    apostrophes where the script has double quotes. *)
Definition dquote : ascii := ascii_of_nat 34.

Fixpoint html (s : string) : string :=
  match s with
  | EmptyString => EmptyString
  | String c r => String (if Ascii.eqb c "'" then dquote else c) (html r)
  end.

(** [a.join(sep)] *)
Fixpoint join (sep : string) (a : list string) : string :=
  match a with
  | [] => ""
  | [x] => x
  | x :: rest => x ++ sep ++ join sep rest
  end.

(** [s.split(sep)] for a separator of one character. *)
Fixpoint split (sep : ascii) (s : string) : list string :=
  match s with
  | EmptyString => [""]
  | String c r =>
      if Ascii.eqb c sep then "" :: split sep r
      else match split sep r with
           | [] => [String c ""]
           | w :: ws => String c w :: ws
           end
  end.

(** [a.slice(n)] *)
Definition slice {A} (n : nat) (a : list A) : list A := skipn n a.

(** [a.includes(x)] on strings. *)
Definition includes (a : list string) (x : string) : bool :=
  existsb (String.eqb x) a.

(** *** [String.prototype.replace] with a string pattern *)

(** [s.startsWith(p)] *)
Fixpoint startsWith (p s : string) : bool :=
  match p, s with
  | EmptyString, _ => true
  | String a p', String b s' => Ascii.eqb a b && startsWith p' s'
  | String _ _, EmptyString => false
  end.

Fixpoint drop (n : nat) (s : string) : string :=
  match n, s with
  | S n', String _ s' => drop n' s'
  | _, _ => s
  end.

(** The text before and the text after the first occurrence of [pat]. *)
Fixpoint cut (pat s : string) : option (string * string) :=
  if startsWith pat s then Some ("", drop (String.length pat) s)
  else match s with
       | EmptyString => None
       | String c s' =>
           match cut pat s' with
           | Some (b, a) => Some (String c b, a)
           | None => None
           end
       end.

(** [GetSubstitution] when the pattern is a string, so that there is no
    capture group: [$$] is a dollar, [$&] the matched text, [$`] the text
    before the match, [$'] the text after it; any other character,
    a dollar included, stands for itself. *)
Fixpoint GetSubstitution (matched before after replacement : string) : string :=
  match replacement with
  | EmptyString => EmptyString
  | String c r =>
      if Ascii.eqb c "$" then
        match r with
        | EmptyString => String c EmptyString
        | String d r' =>
            if Ascii.eqb d "$" then
              String "$" (GetSubstitution matched before after r')
            else if Ascii.eqb d "&" then
              matched ++ GetSubstitution matched before after r'
            else if Ascii.eqb d "`" then
              before ++ GetSubstitution matched before after r'
            else if Ascii.eqb d "'" then
              after ++ GetSubstitution matched before after r'
            else String c (GetSubstitution matched before after r)
        end
      else String c (GetSubstitution matched before after r)
  end.

(** [s.replace(pat, replacement)]: only the first occurrence is replaced. *)
Definition replace (s pat replacement : string) : string :=
  match cut pat s with
  | None => s
  | Some (before, after) =>
      before ++ GetSubstitution pat before after replacement ++ after
  end.

(** *** [parseInt] with no radix argument *)

Definition code (c : ascii) : N := N_of_ascii c.

(** White space and line terminators of one byte: TAB, LF, VT, FF, CR, SP. *)
Definition isWhiteSpace1 (c : ascii) : bool :=
  ((9 <=? code c) && (code c <=? 13) || (code c =? 32))%N.

(** U+00A0. *)
Definition isWhiteSpace2 (a b : ascii) : bool :=
  ((code a =? 194) && (code b =? 160))%N.

(** U+1680, U+2000 to U+200A, U+2028, U+2029, U+202F, U+205F, U+3000, U+FEFF. *)
Definition isWhiteSpace3 (a b c : ascii) : bool :=
  ((code a =? 225) && (code b =? 154) && (code c =? 128)
   || (code a =? 226) && (code b =? 128)
      && ((128 <=? code c) && (code c <=? 138)
          || (code c =? 168) || (code c =? 169) || (code c =? 175))
   || (code a =? 226) && (code b =? 129) && (code c =? 159)
   || (code a =? 227) && (code b =? 128) && (code c =? 128)
   || (code a =? 239) && (code b =? 187) && (code c =? 191))%N.

(** [TrimString(s, start)] *)
Fixpoint trimStart (s : string) : string :=
  match s with
  | EmptyString => s
  | String a r =>
      if isWhiteSpace1 a then trimStart r
      else match r with
           | EmptyString => s
           | String b r2 =>
               if isWhiteSpace2 a b then trimStart r2
               else match r2 with
                    | EmptyString => s
                    | String c r3 =>
                        if isWhiteSpace3 a b c then trimStart r3 else s
                    end
           end
  end.

(** The value of a character as a digit, letters counting from ten. *)
Definition digitValue (c : ascii) : option Z :=
  let n := Z.of_N (code c) in
  if ((48 <=? n) && (n <=? 57))%Z then Some (n - 48)%Z
  else if ((97 <=? n) && (n <=? 122))%Z then Some (n - 87)%Z
  else if ((65 <=? n) && (n <=? 90))%Z then Some (n - 55)%Z
  else None.

(** The integer written by the longest prefix of radix-[R] digits of [s];
    [acc] is [None] as long as no digit has been read. *)
Fixpoint digits (R : Z) (acc : option Z) (s : string) : option Z :=
  match s with
  | EmptyString => acc
  | String c r =>
      match digitValue c with
      | Some d =>
          if (d <? R)%Z
          then digits R (Some (R * match acc with Some v => v | None => 0 end + d)%Z) r
          else acc
      | None => acc
      end
  end.

(** [parseInt(s)]; [None] is [NaN].  The result is kept exact, where the
    runtime rounds it to a double once it leaves the safe integers. *)
Definition parseInt (s : string) : option Z :=
  let S := trimStart s in
  let sign := if startsWith "-" S then (-1)%Z else 1%Z in
  let S := if startsWith "+" S || startsWith "-" S then drop 1 S else S in
  let stripPrefix := startsWith "0x" S || startsWith "0X" S in
  let R := if stripPrefix then 16%Z else 10%Z in
  let S := if stripPrefix then drop 2 S else S in
  match digits R None S with
  | Some mathInt => Some (sign * mathInt)%Z
  | None => None
  end.

(** [a[i]] for a number [i]: [undefined] unless [i] is an index of [a]. *)
Definition at_index {A} (a : list A) (i : option Z) : option A :=
  match i with
  | Some z => if (0 <=? z)%Z then nth_error a (Z.to_nat z) else None
  | None => None
  end.

(** [x || y] *)
Definition or_else {A} `{Truthy A} (x y : A) : A :=
  if ToBoolean x then x else y.

(** *** Case mapping *)

Definition toUpperCase_char (c : ascii) : ascii :=
  if ((97 <=? code c) && (code c <=? 122))%N
  then ascii_of_N (code c - 32) else c.

(** The upper case of the characters of the Basic Multilingual Plane
    outside ASCII that have one, each character and its upper case in
    UTF-8.  The table is that of Unicode 14.0, the mappings to several
    characters of its special casing included; a runtime on a later
    version knows the upper case of a few more characters. *)
Definition upperTable : list (string * string) :=
  [
   ("µ", "Μ"); ("ß", "SS"); ("à", "À"); ("á", "Á"); ("â", "Â"); ("ã", "Ã");
    ("ä", "Ä"); ("å", "Å"); ("æ", "Æ"); ("ç", "Ç"); ("è", "È"); ("é", "É");
    ("ê", "Ê"); ("ë", "Ë"); ("ì", "Ì"); ("í", "Í"); ("î", "Î"); ("ï", "Ï");
    ("ð", "Ð"); ("ñ", "Ñ"); ("ò", "Ò"); ("ó", "Ó"); ("ô", "Ô"); ("õ", "Õ");
    ("ö", "Ö"); ("ø", "Ø"); ("ù", "Ù"); ("ú", "Ú"); ("û", "Û"); ("ü", "Ü");
    ("ý", "Ý"); ("þ", "Þ"); ("ÿ", "Ÿ"); ("ā", "Ā"); ("ă", "Ă"); ("ą", "Ą");
    ("ć", "Ć"); ("ĉ", "Ĉ"); ("ċ", "Ċ"); ("č", "Č"); ("ď", "Ď"); ("đ", "Đ");
    ("ē", "Ē"); ("ĕ", "Ĕ"); ("ė", "Ė"); ("ę", "Ę"); ("ě", "Ě"); ("ĝ", "Ĝ");
    ("ğ", "Ğ"); ("ġ", "Ġ"); ("ģ", "Ģ"); ("ĥ", "Ĥ"); ("ħ", "Ħ"); ("ĩ", "Ĩ");
    ("ī", "Ī"); ("ĭ", "Ĭ"); ("į", "Į"); ("ı", "I"); ("ĳ", "Ĳ"); ("ĵ", "Ĵ");
    ("ķ", "Ķ"); ("ĺ", "Ĺ"); ("ļ", "Ļ"); ("ľ", "Ľ"); ("ŀ", "Ŀ"); ("ł", "Ł");
    ("ń", "Ń"); ("ņ", "Ņ"); ("ň", "Ň"); ("ŉ", "ʼN"); ("ŋ", "Ŋ"); ("ō", "Ō");
    ("ŏ", "Ŏ"); ("ő", "Ő"); ("œ", "Œ"); ("ŕ", "Ŕ"); ("ŗ", "Ŗ"); ("ř", "Ř");
    ("ś", "Ś"); ("ŝ", "Ŝ"); ("ş", "Ş"); ("š", "Š"); ("ţ", "Ţ"); ("ť", "Ť");
    ("ŧ", "Ŧ"); ("ũ", "Ũ"); ("ū", "Ū"); ("ŭ", "Ŭ"); ("ů", "Ů"); ("ű", "Ű");
    ("ų", "Ų"); ("ŵ", "Ŵ"); ("ŷ", "Ŷ"); ("ź", "Ź"); ("ż", "Ż"); ("ž", "Ž");
    ("ſ", "S"); ("ƀ", "Ƀ"); ("ƃ", "Ƃ"); ("ƅ", "Ƅ"); ("ƈ", "Ƈ"); ("ƌ", "Ƌ");
    ("ƒ", "Ƒ"); ("ƕ", "Ƕ"); ("ƙ", "Ƙ"); ("ƚ", "Ƚ"); ("ƞ", "Ƞ"); ("ơ", "Ơ");
    ("ƣ", "Ƣ"); ("ƥ", "Ƥ"); ("ƨ", "Ƨ"); ("ƭ", "Ƭ"); ("ư", "Ư"); ("ƴ", "Ƴ");
    ("ƶ", "Ƶ"); ("ƹ", "Ƹ"); ("ƽ", "Ƽ"); ("ƿ", "Ƿ"); ("ǅ", "Ǆ"); ("ǆ", "Ǆ");
    ("ǈ", "Ǉ"); ("ǉ", "Ǉ"); ("ǋ", "Ǌ"); ("ǌ", "Ǌ"); ("ǎ", "Ǎ"); ("ǐ", "Ǐ");
    ("ǒ", "Ǒ"); ("ǔ", "Ǔ"); ("ǖ", "Ǖ"); ("ǘ", "Ǘ"); ("ǚ", "Ǚ"); ("ǜ", "Ǜ");
    ("ǝ", "Ǝ"); ("ǟ", "Ǟ"); ("ǡ", "Ǡ"); ("ǣ", "Ǣ"); ("ǥ", "Ǥ"); ("ǧ", "Ǧ");
    ("ǩ", "Ǩ"); ("ǫ", "Ǫ"); ("ǭ", "Ǭ"); ("ǯ", "Ǯ"); ("ǰ", "J̌"); ("ǲ", "Ǳ");
    ("ǳ", "Ǳ"); ("ǵ", "Ǵ"); ("ǹ", "Ǹ"); ("ǻ", "Ǻ"); ("ǽ", "Ǽ"); ("ǿ", "Ǿ");
    ("ȁ", "Ȁ"); ("ȃ", "Ȃ"); ("ȅ", "Ȅ"); ("ȇ", "Ȇ"); ("ȉ", "Ȉ"); ("ȋ", "Ȋ");
    ("ȍ", "Ȍ"); ("ȏ", "Ȏ"); ("ȑ", "Ȑ"); ("ȓ", "Ȓ"); ("ȕ", "Ȕ"); ("ȗ", "Ȗ");
    ("ș", "Ș"); ("ț", "Ț"); ("ȝ", "Ȝ"); ("ȟ", "Ȟ"); ("ȣ", "Ȣ"); ("ȥ", "Ȥ");
    ("ȧ", "Ȧ"); ("ȩ", "Ȩ"); ("ȫ", "Ȫ"); ("ȭ", "Ȭ"); ("ȯ", "Ȯ"); ("ȱ", "Ȱ");
    ("ȳ", "Ȳ"); ("ȼ", "Ȼ"); ("ȿ", "Ȿ"); ("ɀ", "Ɀ"); ("ɂ", "Ɂ"); ("ɇ", "Ɇ");
    ("ɉ", "Ɉ"); ("ɋ", "Ɋ"); ("ɍ", "Ɍ"); ("ɏ", "Ɏ"); ("ɐ", "Ɐ"); ("ɑ", "Ɑ");
    ("ɒ", "Ɒ"); ("ɓ", "Ɓ"); ("ɔ", "Ɔ"); ("ɖ", "Ɖ"); ("ɗ", "Ɗ"); ("ə", "Ə");
    ("ɛ", "Ɛ"); ("ɜ", "Ɜ"); ("ɠ", "Ɠ"); ("ɡ", "Ɡ"); ("ɣ", "Ɣ"); ("ɥ", "Ɥ");
    ("ɦ", "Ɦ"); ("ɨ", "Ɨ"); ("ɩ", "Ɩ"); ("ɪ", "Ɪ"); ("ɫ", "Ɫ"); ("ɬ", "Ɬ");
    ("ɯ", "Ɯ"); ("ɱ", "Ɱ"); ("ɲ", "Ɲ"); ("ɵ", "Ɵ"); ("ɽ", "Ɽ"); ("ʀ", "Ʀ");
    ("ʂ", "Ʂ"); ("ʃ", "Ʃ"); ("ʇ", "Ʇ"); ("ʈ", "Ʈ"); ("ʉ", "Ʉ"); ("ʊ", "Ʊ");
    ("ʋ", "Ʋ"); ("ʌ", "Ʌ"); ("ʒ", "Ʒ"); ("ʝ", "Ʝ"); ("ʞ", "Ʞ"); ("ͅ", "Ι");
    ("ͱ", "Ͱ"); ("ͳ", "Ͳ"); ("ͷ", "Ͷ"); ("ͻ", "Ͻ"); ("ͼ", "Ͼ"); ("ͽ", "Ͽ");
    ("ΐ", "Ϊ́"); ("ά", "Ά"); ("έ", "Έ"); ("ή", "Ή"); ("ί", "Ί");
    ("ΰ", "Ϋ́"); ("α", "Α"); ("β", "Β"); ("γ", "Γ"); ("δ", "Δ"); ("ε", "Ε");
    ("ζ", "Ζ"); ("η", "Η"); ("θ", "Θ"); ("ι", "Ι"); ("κ", "Κ"); ("λ", "Λ");
    ("μ", "Μ"); ("ν", "Ν"); ("ξ", "Ξ"); ("ο", "Ο"); ("π", "Π"); ("ρ", "Ρ");
    ("ς", "Σ"); ("σ", "Σ"); ("τ", "Τ"); ("υ", "Υ"); ("φ", "Φ"); ("χ", "Χ");
    ("ψ", "Ψ"); ("ω", "Ω"); ("ϊ", "Ϊ"); ("ϋ", "Ϋ"); ("ό", "Ό"); ("ύ", "Ύ");
    ("ώ", "Ώ"); ("ϐ", "Β"); ("ϑ", "Θ"); ("ϕ", "Φ"); ("ϖ", "Π"); ("ϗ", "Ϗ");
    ("ϙ", "Ϙ"); ("ϛ", "Ϛ"); ("ϝ", "Ϝ"); ("ϟ", "Ϟ"); ("ϡ", "Ϡ"); ("ϣ", "Ϣ");
    ("ϥ", "Ϥ"); ("ϧ", "Ϧ"); ("ϩ", "Ϩ"); ("ϫ", "Ϫ"); ("ϭ", "Ϭ"); ("ϯ", "Ϯ");
    ("ϰ", "Κ"); ("ϱ", "Ρ"); ("ϲ", "Ϲ"); ("ϳ", "Ϳ"); ("ϵ", "Ε"); ("ϸ", "Ϸ");
    ("ϻ", "Ϻ"); ("а", "А"); ("б", "Б"); ("в", "В"); ("г", "Г"); ("д", "Д");
    ("е", "Е"); ("ж", "Ж"); ("з", "З"); ("и", "И"); ("й", "Й"); ("к", "К");
    ("л", "Л"); ("м", "М"); ("н", "Н"); ("о", "О"); ("п", "П"); ("р", "Р");
    ("с", "С"); ("т", "Т"); ("у", "У"); ("ф", "Ф"); ("х", "Х"); ("ц", "Ц");
    ("ч", "Ч"); ("ш", "Ш"); ("щ", "Щ"); ("ъ", "Ъ"); ("ы", "Ы"); ("ь", "Ь");
    ("э", "Э"); ("ю", "Ю"); ("я", "Я"); ("ѐ", "Ѐ"); ("ё", "Ё"); ("ђ", "Ђ");
    ("ѓ", "Ѓ"); ("є", "Є"); ("ѕ", "Ѕ"); ("і", "І"); ("ї", "Ї"); ("ј", "Ј");
    ("љ", "Љ"); ("њ", "Њ"); ("ћ", "Ћ"); ("ќ", "Ќ"); ("ѝ", "Ѝ"); ("ў", "Ў");
    ("џ", "Џ"); ("ѡ", "Ѡ"); ("ѣ", "Ѣ"); ("ѥ", "Ѥ"); ("ѧ", "Ѧ"); ("ѩ", "Ѩ");
    ("ѫ", "Ѫ"); ("ѭ", "Ѭ"); ("ѯ", "Ѯ"); ("ѱ", "Ѱ"); ("ѳ", "Ѳ"); ("ѵ", "Ѵ");
    ("ѷ", "Ѷ"); ("ѹ", "Ѹ"); ("ѻ", "Ѻ"); ("ѽ", "Ѽ"); ("ѿ", "Ѿ"); ("ҁ", "Ҁ");
    ("ҋ", "Ҋ"); ("ҍ", "Ҍ"); ("ҏ", "Ҏ"); ("ґ", "Ґ"); ("ғ", "Ғ"); ("ҕ", "Ҕ");
    ("җ", "Җ"); ("ҙ", "Ҙ"); ("қ", "Қ"); ("ҝ", "Ҝ"); ("ҟ", "Ҟ"); ("ҡ", "Ҡ");
    ("ң", "Ң"); ("ҥ", "Ҥ"); ("ҧ", "Ҧ"); ("ҩ", "Ҩ"); ("ҫ", "Ҫ"); ("ҭ", "Ҭ");
    ("ү", "Ү"); ("ұ", "Ұ"); ("ҳ", "Ҳ"); ("ҵ", "Ҵ"); ("ҷ", "Ҷ"); ("ҹ", "Ҹ");
    ("һ", "Һ"); ("ҽ", "Ҽ"); ("ҿ", "Ҿ"); ("ӂ", "Ӂ"); ("ӄ", "Ӄ"); ("ӆ", "Ӆ");
    ("ӈ", "Ӈ"); ("ӊ", "Ӊ"); ("ӌ", "Ӌ"); ("ӎ", "Ӎ"); ("ӏ", "Ӏ"); ("ӑ", "Ӑ");
    ("ӓ", "Ӓ"); ("ӕ", "Ӕ"); ("ӗ", "Ӗ"); ("ә", "Ә"); ("ӛ", "Ӛ"); ("ӝ", "Ӝ");
    ("ӟ", "Ӟ"); ("ӡ", "Ӡ"); ("ӣ", "Ӣ"); ("ӥ", "Ӥ"); ("ӧ", "Ӧ"); ("ө", "Ө");
    ("ӫ", "Ӫ"); ("ӭ", "Ӭ"); ("ӯ", "Ӯ"); ("ӱ", "Ӱ"); ("ӳ", "Ӳ"); ("ӵ", "Ӵ");
    ("ӷ", "Ӷ"); ("ӹ", "Ӹ"); ("ӻ", "Ӻ"); ("ӽ", "Ӽ"); ("ӿ", "Ӿ"); ("ԁ", "Ԁ");
    ("ԃ", "Ԃ"); ("ԅ", "Ԅ"); ("ԇ", "Ԇ"); ("ԉ", "Ԉ"); ("ԋ", "Ԋ"); ("ԍ", "Ԍ");
    ("ԏ", "Ԏ"); ("ԑ", "Ԑ"); ("ԓ", "Ԓ"); ("ԕ", "Ԕ"); ("ԗ", "Ԗ"); ("ԙ", "Ԙ");
    ("ԛ", "Ԛ"); ("ԝ", "Ԝ"); ("ԟ", "Ԟ"); ("ԡ", "Ԡ"); ("ԣ", "Ԣ"); ("ԥ", "Ԥ");
    ("ԧ", "Ԧ"); ("ԩ", "Ԩ"); ("ԫ", "Ԫ"); ("ԭ", "Ԭ"); ("ԯ", "Ԯ"); ("ա", "Ա");
    ("բ", "Բ"); ("գ", "Գ"); ("դ", "Դ"); ("ե", "Ե"); ("զ", "Զ"); ("է", "Է");
    ("ը", "Ը"); ("թ", "Թ"); ("ժ", "Ժ"); ("ի", "Ի"); ("լ", "Լ"); ("խ", "Խ");
    ("ծ", "Ծ"); ("կ", "Կ"); ("հ", "Հ"); ("ձ", "Ձ"); ("ղ", "Ղ"); ("ճ", "Ճ");
    ("մ", "Մ"); ("յ", "Յ"); ("ն", "Ն"); ("շ", "Շ"); ("ո", "Ո"); ("չ", "Չ");
    ("պ", "Պ"); ("ջ", "Ջ"); ("ռ", "Ռ"); ("ս", "Ս"); ("վ", "Վ"); ("տ", "Տ");
    ("ր", "Ր"); ("ց", "Ց"); ("ւ", "Ւ"); ("փ", "Փ"); ("ք", "Ք"); ("օ", "Օ");
    ("ֆ", "Ֆ"); ("և", "ԵՒ"); ("ა", "Ა"); ("ბ", "Ბ"); ("გ", "Გ"); ("დ", "Დ");
    ("ე", "Ე"); ("ვ", "Ვ"); ("ზ", "Ზ"); ("თ", "Თ"); ("ი", "Ი"); ("კ", "Კ");
    ("ლ", "Ლ"); ("მ", "Მ"); ("ნ", "Ნ"); ("ო", "Ო"); ("პ", "Პ"); ("ჟ", "Ჟ");
    ("რ", "Რ"); ("ს", "Ს"); ("ტ", "Ტ"); ("უ", "Უ"); ("ფ", "Ფ"); ("ქ", "Ქ");
    ("ღ", "Ღ"); ("ყ", "Ყ"); ("შ", "Შ"); ("ჩ", "Ჩ"); ("ც", "Ც"); ("ძ", "Ძ");
    ("წ", "Წ"); ("ჭ", "Ჭ"); ("ხ", "Ხ"); ("ჯ", "Ჯ"); ("ჰ", "Ჰ"); ("ჱ", "Ჱ");
    ("ჲ", "Ჲ"); ("ჳ", "Ჳ"); ("ჴ", "Ჴ"); ("ჵ", "Ჵ"); ("ჶ", "Ჶ"); ("ჷ", "Ჷ");
    ("ჸ", "Ჸ"); ("ჹ", "Ჹ"); ("ჺ", "Ჺ"); ("ჽ", "Ჽ"); ("ჾ", "Ჾ"); ("ჿ", "Ჿ");
    ("ᏸ", "Ᏸ"); ("ᏹ", "Ᏹ"); ("ᏺ", "Ᏺ"); ("ᏻ", "Ᏻ"); ("ᏼ", "Ᏼ"); ("ᏽ", "Ᏽ");
    ("ᲀ", "В"); ("ᲁ", "Д"); ("ᲂ", "О"); ("ᲃ", "С"); ("ᲄ", "Т"); ("ᲅ", "Т");
    ("ᲆ", "Ъ"); ("ᲇ", "Ѣ"); ("ᲈ", "Ꙋ"); ("ᵹ", "Ᵹ"); ("ᵽ", "Ᵽ"); ("ᶎ", "Ᶎ");
    ("ḁ", "Ḁ"); ("ḃ", "Ḃ"); ("ḅ", "Ḅ"); ("ḇ", "Ḇ"); ("ḉ", "Ḉ"); ("ḋ", "Ḋ");
    ("ḍ", "Ḍ"); ("ḏ", "Ḏ"); ("ḑ", "Ḑ"); ("ḓ", "Ḓ"); ("ḕ", "Ḕ"); ("ḗ", "Ḗ");
    ("ḙ", "Ḙ"); ("ḛ", "Ḛ"); ("ḝ", "Ḝ"); ("ḟ", "Ḟ"); ("ḡ", "Ḡ"); ("ḣ", "Ḣ");
    ("ḥ", "Ḥ"); ("ḧ", "Ḧ"); ("ḩ", "Ḩ"); ("ḫ", "Ḫ"); ("ḭ", "Ḭ"); ("ḯ", "Ḯ");
    ("ḱ", "Ḱ"); ("ḳ", "Ḳ"); ("ḵ", "Ḵ"); ("ḷ", "Ḷ"); ("ḹ", "Ḹ"); ("ḻ", "Ḻ");
    ("ḽ", "Ḽ"); ("ḿ", "Ḿ"); ("ṁ", "Ṁ"); ("ṃ", "Ṃ"); ("ṅ", "Ṅ"); ("ṇ", "Ṇ");
    ("ṉ", "Ṉ"); ("ṋ", "Ṋ"); ("ṍ", "Ṍ"); ("ṏ", "Ṏ"); ("ṑ", "Ṑ"); ("ṓ", "Ṓ");
    ("ṕ", "Ṕ"); ("ṗ", "Ṗ"); ("ṙ", "Ṙ"); ("ṛ", "Ṛ"); ("ṝ", "Ṝ"); ("ṟ", "Ṟ");
    ("ṡ", "Ṡ"); ("ṣ", "Ṣ"); ("ṥ", "Ṥ"); ("ṧ", "Ṧ"); ("ṩ", "Ṩ"); ("ṫ", "Ṫ");
    ("ṭ", "Ṭ"); ("ṯ", "Ṯ"); ("ṱ", "Ṱ"); ("ṳ", "Ṳ"); ("ṵ", "Ṵ"); ("ṷ", "Ṷ");
    ("ṹ", "Ṹ"); ("ṻ", "Ṻ"); ("ṽ", "Ṽ"); ("ṿ", "Ṿ"); ("ẁ", "Ẁ"); ("ẃ", "Ẃ");
    ("ẅ", "Ẅ"); ("ẇ", "Ẇ"); ("ẉ", "Ẉ"); ("ẋ", "Ẋ"); ("ẍ", "Ẍ"); ("ẏ", "Ẏ");
    ("ẑ", "Ẑ"); ("ẓ", "Ẓ"); ("ẕ", "Ẕ"); ("ẖ", "H̱"); ("ẗ", "T̈");
    ("ẘ", "W̊"); ("ẙ", "Y̊"); ("ẚ", "Aʾ"); ("ẛ", "Ṡ"); ("ạ", "Ạ");
    ("ả", "Ả"); ("ấ", "Ấ"); ("ầ", "Ầ"); ("ẩ", "Ẩ"); ("ẫ", "Ẫ"); ("ậ", "Ậ");
    ("ắ", "Ắ"); ("ằ", "Ằ"); ("ẳ", "Ẳ"); ("ẵ", "Ẵ"); ("ặ", "Ặ"); ("ẹ", "Ẹ");
    ("ẻ", "Ẻ"); ("ẽ", "Ẽ"); ("ế", "Ế"); ("ề", "Ề"); ("ể", "Ể"); ("ễ", "Ễ");
    ("ệ", "Ệ"); ("ỉ", "Ỉ"); ("ị", "Ị"); ("ọ", "Ọ"); ("ỏ", "Ỏ"); ("ố", "Ố");
    ("ồ", "Ồ"); ("ổ", "Ổ"); ("ỗ", "Ỗ"); ("ộ", "Ộ"); ("ớ", "Ớ"); ("ờ", "Ờ");
    ("ở", "Ở"); ("ỡ", "Ỡ"); ("ợ", "Ợ"); ("ụ", "Ụ"); ("ủ", "Ủ"); ("ứ", "Ứ");
    ("ừ", "Ừ"); ("ử", "Ử"); ("ữ", "Ữ"); ("ự", "Ự"); ("ỳ", "Ỳ"); ("ỵ", "Ỵ");
    ("ỷ", "Ỷ"); ("ỹ", "Ỹ"); ("ỻ", "Ỻ"); ("ỽ", "Ỽ"); ("ỿ", "Ỿ"); ("ἀ", "Ἀ");
    ("ἁ", "Ἁ"); ("ἂ", "Ἂ"); ("ἃ", "Ἃ"); ("ἄ", "Ἄ"); ("ἅ", "Ἅ"); ("ἆ", "Ἆ");
    ("ἇ", "Ἇ"); ("ἐ", "Ἐ"); ("ἑ", "Ἑ"); ("ἒ", "Ἒ"); ("ἓ", "Ἓ"); ("ἔ", "Ἔ");
    ("ἕ", "Ἕ"); ("ἠ", "Ἠ"); ("ἡ", "Ἡ"); ("ἢ", "Ἢ"); ("ἣ", "Ἣ"); ("ἤ", "Ἤ");
    ("ἥ", "Ἥ"); ("ἦ", "Ἦ"); ("ἧ", "Ἧ"); ("ἰ", "Ἰ"); ("ἱ", "Ἱ"); ("ἲ", "Ἲ");
    ("ἳ", "Ἳ"); ("ἴ", "Ἴ"); ("ἵ", "Ἵ"); ("ἶ", "Ἶ"); ("ἷ", "Ἷ"); ("ὀ", "Ὀ");
    ("ὁ", "Ὁ"); ("ὂ", "Ὂ"); ("ὃ", "Ὃ"); ("ὄ", "Ὄ"); ("ὅ", "Ὅ"); ("ὐ", "Υ̓");
    ("ὑ", "Ὑ"); ("ὒ", "Υ̓̀"); ("ὓ", "Ὓ"); ("ὔ", "Υ̓́"); ("ὕ", "Ὕ");
    ("ὖ", "Υ̓͂"); ("ὗ", "Ὗ"); ("ὠ", "Ὠ"); ("ὡ", "Ὡ"); ("ὢ", "Ὢ"); ("ὣ", "Ὣ");
    ("ὤ", "Ὤ"); ("ὥ", "Ὥ"); ("ὦ", "Ὦ"); ("ὧ", "Ὧ"); ("ὰ", "Ὰ"); ("ά", "Ά");
    ("ὲ", "Ὲ"); ("έ", "Έ"); ("ὴ", "Ὴ"); ("ή", "Ή"); ("ὶ", "Ὶ"); ("ί", "Ί");
    ("ὸ", "Ὸ"); ("ό", "Ό"); ("ὺ", "Ὺ"); ("ύ", "Ύ"); ("ὼ", "Ὼ"); ("ώ", "Ώ");
    ("ᾀ", "ἈΙ"); ("ᾁ", "ἉΙ"); ("ᾂ", "ἊΙ"); ("ᾃ", "ἋΙ"); ("ᾄ", "ἌΙ");
    ("ᾅ", "ἍΙ"); ("ᾆ", "ἎΙ"); ("ᾇ", "ἏΙ"); ("ᾈ", "ἈΙ"); ("ᾉ", "ἉΙ");
    ("ᾊ", "ἊΙ"); ("ᾋ", "ἋΙ"); ("ᾌ", "ἌΙ"); ("ᾍ", "ἍΙ"); ("ᾎ", "ἎΙ");
    ("ᾏ", "ἏΙ"); ("ᾐ", "ἨΙ"); ("ᾑ", "ἩΙ"); ("ᾒ", "ἪΙ"); ("ᾓ", "ἫΙ");
    ("ᾔ", "ἬΙ"); ("ᾕ", "ἭΙ"); ("ᾖ", "ἮΙ"); ("ᾗ", "ἯΙ"); ("ᾘ", "ἨΙ");
    ("ᾙ", "ἩΙ"); ("ᾚ", "ἪΙ"); ("ᾛ", "ἫΙ"); ("ᾜ", "ἬΙ"); ("ᾝ", "ἭΙ");
    ("ᾞ", "ἮΙ"); ("ᾟ", "ἯΙ"); ("ᾠ", "ὨΙ"); ("ᾡ", "ὩΙ"); ("ᾢ", "ὪΙ");
    ("ᾣ", "ὫΙ"); ("ᾤ", "ὬΙ"); ("ᾥ", "ὭΙ"); ("ᾦ", "ὮΙ"); ("ᾧ", "ὯΙ");
    ("ᾨ", "ὨΙ"); ("ᾩ", "ὩΙ"); ("ᾪ", "ὪΙ"); ("ᾫ", "ὫΙ"); ("ᾬ", "ὬΙ");
    ("ᾭ", "ὭΙ"); ("ᾮ", "ὮΙ"); ("ᾯ", "ὯΙ"); ("ᾰ", "Ᾰ"); ("ᾱ", "Ᾱ");
    ("ᾲ", "ᾺΙ"); ("ᾳ", "ΑΙ"); ("ᾴ", "ΆΙ"); ("ᾶ", "Α͂"); ("ᾷ", "Α͂Ι");
    ("ᾼ", "ΑΙ"); ("ι", "Ι"); ("ῂ", "ῊΙ"); ("ῃ", "ΗΙ"); ("ῄ", "ΉΙ");
    ("ῆ", "Η͂"); ("ῇ", "Η͂Ι"); ("ῌ", "ΗΙ"); ("ῐ", "Ῐ"); ("ῑ", "Ῑ");
    ("ῒ", "Ϊ̀"); ("ΐ", "Ϊ́"); ("ῖ", "Ι͂"); ("ῗ", "Ϊ͂"); ("ῠ", "Ῠ");
    ("ῡ", "Ῡ"); ("ῢ", "Ϋ̀"); ("ΰ", "Ϋ́"); ("ῤ", "Ρ̓"); ("ῥ", "Ῥ");
    ("ῦ", "Υ͂"); ("ῧ", "Ϋ͂"); ("ῲ", "ῺΙ"); ("ῳ", "ΩΙ"); ("ῴ", "ΏΙ");
    ("ῶ", "Ω͂"); ("ῷ", "Ω͂Ι"); ("ῼ", "ΩΙ"); ("ⅎ", "Ⅎ"); ("ⅰ", "Ⅰ");
    ("ⅱ", "Ⅱ"); ("ⅲ", "Ⅲ"); ("ⅳ", "Ⅳ"); ("ⅴ", "Ⅴ"); ("ⅵ", "Ⅵ"); ("ⅶ", "Ⅶ");
    ("ⅷ", "Ⅷ"); ("ⅸ", "Ⅸ"); ("ⅹ", "Ⅹ"); ("ⅺ", "Ⅺ"); ("ⅻ", "Ⅻ"); ("ⅼ", "Ⅼ");
    ("ⅽ", "Ⅽ"); ("ⅾ", "Ⅾ"); ("ⅿ", "Ⅿ"); ("ↄ", "Ↄ"); ("ⓐ", "Ⓐ"); ("ⓑ", "Ⓑ");
    ("ⓒ", "Ⓒ"); ("ⓓ", "Ⓓ"); ("ⓔ", "Ⓔ"); ("ⓕ", "Ⓕ"); ("ⓖ", "Ⓖ"); ("ⓗ", "Ⓗ");
    ("ⓘ", "Ⓘ"); ("ⓙ", "Ⓙ"); ("ⓚ", "Ⓚ"); ("ⓛ", "Ⓛ"); ("ⓜ", "Ⓜ"); ("ⓝ", "Ⓝ");
    ("ⓞ", "Ⓞ"); ("ⓟ", "Ⓟ"); ("ⓠ", "Ⓠ"); ("ⓡ", "Ⓡ"); ("ⓢ", "Ⓢ"); ("ⓣ", "Ⓣ");
    ("ⓤ", "Ⓤ"); ("ⓥ", "Ⓥ"); ("ⓦ", "Ⓦ"); ("ⓧ", "Ⓧ"); ("ⓨ", "Ⓨ"); ("ⓩ", "Ⓩ");
    ("ⰰ", "Ⰰ"); ("ⰱ", "Ⰱ"); ("ⰲ", "Ⰲ"); ("ⰳ", "Ⰳ"); ("ⰴ", "Ⰴ"); ("ⰵ", "Ⰵ");
    ("ⰶ", "Ⰶ"); ("ⰷ", "Ⰷ"); ("ⰸ", "Ⰸ"); ("ⰹ", "Ⰹ"); ("ⰺ", "Ⰺ"); ("ⰻ", "Ⰻ");
    ("ⰼ", "Ⰼ"); ("ⰽ", "Ⰽ"); ("ⰾ", "Ⰾ"); ("ⰿ", "Ⰿ"); ("ⱀ", "Ⱀ"); ("ⱁ", "Ⱁ");
    ("ⱂ", "Ⱂ"); ("ⱃ", "Ⱃ"); ("ⱄ", "Ⱄ"); ("ⱅ", "Ⱅ"); ("ⱆ", "Ⱆ"); ("ⱇ", "Ⱇ");
    ("ⱈ", "Ⱈ"); ("ⱉ", "Ⱉ"); ("ⱊ", "Ⱊ"); ("ⱋ", "Ⱋ"); ("ⱌ", "Ⱌ"); ("ⱍ", "Ⱍ");
    ("ⱎ", "Ⱎ"); ("ⱏ", "Ⱏ"); ("ⱐ", "Ⱐ"); ("ⱑ", "Ⱑ"); ("ⱒ", "Ⱒ"); ("ⱓ", "Ⱓ");
    ("ⱔ", "Ⱔ"); ("ⱕ", "Ⱕ"); ("ⱖ", "Ⱖ"); ("ⱗ", "Ⱗ"); ("ⱘ", "Ⱘ"); ("ⱙ", "Ⱙ");
    ("ⱚ", "Ⱚ"); ("ⱛ", "Ⱛ"); ("ⱜ", "Ⱜ"); ("ⱝ", "Ⱝ"); ("ⱞ", "Ⱞ"); ("ⱟ", "Ⱟ");
    ("ⱡ", "Ⱡ"); ("ⱥ", "Ⱥ"); ("ⱦ", "Ⱦ"); ("ⱨ", "Ⱨ"); ("ⱪ", "Ⱪ"); ("ⱬ", "Ⱬ");
    ("ⱳ", "Ⱳ"); ("ⱶ", "Ⱶ"); ("ⲁ", "Ⲁ"); ("ⲃ", "Ⲃ"); ("ⲅ", "Ⲅ"); ("ⲇ", "Ⲇ");
    ("ⲉ", "Ⲉ"); ("ⲋ", "Ⲋ"); ("ⲍ", "Ⲍ"); ("ⲏ", "Ⲏ"); ("ⲑ", "Ⲑ"); ("ⲓ", "Ⲓ");
    ("ⲕ", "Ⲕ"); ("ⲗ", "Ⲗ"); ("ⲙ", "Ⲙ"); ("ⲛ", "Ⲛ"); ("ⲝ", "Ⲝ"); ("ⲟ", "Ⲟ");
    ("ⲡ", "Ⲡ"); ("ⲣ", "Ⲣ"); ("ⲥ", "Ⲥ"); ("ⲧ", "Ⲧ"); ("ⲩ", "Ⲩ"); ("ⲫ", "Ⲫ");
    ("ⲭ", "Ⲭ"); ("ⲯ", "Ⲯ"); ("ⲱ", "Ⲱ"); ("ⲳ", "Ⲳ"); ("ⲵ", "Ⲵ"); ("ⲷ", "Ⲷ");
    ("ⲹ", "Ⲹ"); ("ⲻ", "Ⲻ"); ("ⲽ", "Ⲽ"); ("ⲿ", "Ⲿ"); ("ⳁ", "Ⳁ"); ("ⳃ", "Ⳃ");
    ("ⳅ", "Ⳅ"); ("ⳇ", "Ⳇ"); ("ⳉ", "Ⳉ"); ("ⳋ", "Ⳋ"); ("ⳍ", "Ⳍ"); ("ⳏ", "Ⳏ");
    ("ⳑ", "Ⳑ"); ("ⳓ", "Ⳓ"); ("ⳕ", "Ⳕ"); ("ⳗ", "Ⳗ"); ("ⳙ", "Ⳙ"); ("ⳛ", "Ⳛ");
    ("ⳝ", "Ⳝ"); ("ⳟ", "Ⳟ"); ("ⳡ", "Ⳡ"); ("ⳣ", "Ⳣ"); ("ⳬ", "Ⳬ"); ("ⳮ", "Ⳮ");
    ("ⳳ", "Ⳳ"); ("ⴀ", "Ⴀ"); ("ⴁ", "Ⴁ"); ("ⴂ", "Ⴂ"); ("ⴃ", "Ⴃ"); ("ⴄ", "Ⴄ");
    ("ⴅ", "Ⴅ"); ("ⴆ", "Ⴆ"); ("ⴇ", "Ⴇ"); ("ⴈ", "Ⴈ"); ("ⴉ", "Ⴉ"); ("ⴊ", "Ⴊ");
    ("ⴋ", "Ⴋ"); ("ⴌ", "Ⴌ"); ("ⴍ", "Ⴍ"); ("ⴎ", "Ⴎ"); ("ⴏ", "Ⴏ"); ("ⴐ", "Ⴐ");
    ("ⴑ", "Ⴑ"); ("ⴒ", "Ⴒ"); ("ⴓ", "Ⴓ"); ("ⴔ", "Ⴔ"); ("ⴕ", "Ⴕ"); ("ⴖ", "Ⴖ");
    ("ⴗ", "Ⴗ"); ("ⴘ", "Ⴘ"); ("ⴙ", "Ⴙ"); ("ⴚ", "Ⴚ"); ("ⴛ", "Ⴛ"); ("ⴜ", "Ⴜ");
    ("ⴝ", "Ⴝ"); ("ⴞ", "Ⴞ"); ("ⴟ", "Ⴟ"); ("ⴠ", "Ⴠ"); ("ⴡ", "Ⴡ"); ("ⴢ", "Ⴢ");
    ("ⴣ", "Ⴣ"); ("ⴤ", "Ⴤ"); ("ⴥ", "Ⴥ"); ("ⴧ", "Ⴧ"); ("ⴭ", "Ⴭ"); ("ꙁ", "Ꙁ");
    ("ꙃ", "Ꙃ"); ("ꙅ", "Ꙅ"); ("ꙇ", "Ꙇ"); ("ꙉ", "Ꙉ"); ("ꙋ", "Ꙋ"); ("ꙍ", "Ꙍ");
    ("ꙏ", "Ꙏ"); ("ꙑ", "Ꙑ"); ("ꙓ", "Ꙓ"); ("ꙕ", "Ꙕ"); ("ꙗ", "Ꙗ"); ("ꙙ", "Ꙙ");
    ("ꙛ", "Ꙛ"); ("ꙝ", "Ꙝ"); ("ꙟ", "Ꙟ"); ("ꙡ", "Ꙡ"); ("ꙣ", "Ꙣ"); ("ꙥ", "Ꙥ");
    ("ꙧ", "Ꙧ"); ("ꙩ", "Ꙩ"); ("ꙫ", "Ꙫ"); ("ꙭ", "Ꙭ"); ("ꚁ", "Ꚁ"); ("ꚃ", "Ꚃ");
    ("ꚅ", "Ꚅ"); ("ꚇ", "Ꚇ"); ("ꚉ", "Ꚉ"); ("ꚋ", "Ꚋ"); ("ꚍ", "Ꚍ"); ("ꚏ", "Ꚏ");
    ("ꚑ", "Ꚑ"); ("ꚓ", "Ꚓ"); ("ꚕ", "Ꚕ"); ("ꚗ", "Ꚗ"); ("ꚙ", "Ꚙ"); ("ꚛ", "Ꚛ");
    ("ꜣ", "Ꜣ"); ("ꜥ", "Ꜥ"); ("ꜧ", "Ꜧ"); ("ꜩ", "Ꜩ"); ("ꜫ", "Ꜫ"); ("ꜭ", "Ꜭ");
    ("ꜯ", "Ꜯ"); ("ꜳ", "Ꜳ"); ("ꜵ", "Ꜵ"); ("ꜷ", "Ꜷ"); ("ꜹ", "Ꜹ"); ("ꜻ", "Ꜻ");
    ("ꜽ", "Ꜽ"); ("ꜿ", "Ꜿ"); ("ꝁ", "Ꝁ"); ("ꝃ", "Ꝃ"); ("ꝅ", "Ꝅ"); ("ꝇ", "Ꝇ");
    ("ꝉ", "Ꝉ"); ("ꝋ", "Ꝋ"); ("ꝍ", "Ꝍ"); ("ꝏ", "Ꝏ"); ("ꝑ", "Ꝑ"); ("ꝓ", "Ꝓ");
    ("ꝕ", "Ꝕ"); ("ꝗ", "Ꝗ"); ("ꝙ", "Ꝙ"); ("ꝛ", "Ꝛ"); ("ꝝ", "Ꝝ"); ("ꝟ", "Ꝟ");
    ("ꝡ", "Ꝡ"); ("ꝣ", "Ꝣ"); ("ꝥ", "Ꝥ"); ("ꝧ", "Ꝧ"); ("ꝩ", "Ꝩ"); ("ꝫ", "Ꝫ");
    ("ꝭ", "Ꝭ"); ("ꝯ", "Ꝯ"); ("ꝺ", "Ꝺ"); ("ꝼ", "Ꝼ"); ("ꝿ", "Ꝿ"); ("ꞁ", "Ꞁ");
    ("ꞃ", "Ꞃ"); ("ꞅ", "Ꞅ"); ("ꞇ", "Ꞇ"); ("ꞌ", "Ꞌ"); ("ꞑ", "Ꞑ"); ("ꞓ", "Ꞓ");
    ("ꞔ", "Ꞔ"); ("ꞗ", "Ꞗ"); ("ꞙ", "Ꞙ"); ("ꞛ", "Ꞛ"); ("ꞝ", "Ꞝ"); ("ꞟ", "Ꞟ");
    ("ꞡ", "Ꞡ"); ("ꞣ", "Ꞣ"); ("ꞥ", "Ꞥ"); ("ꞧ", "Ꞧ"); ("ꞩ", "Ꞩ"); ("ꞵ", "Ꞵ");
    ("ꞷ", "Ꞷ"); ("ꞹ", "Ꞹ"); ("ꞻ", "Ꞻ"); ("ꞽ", "Ꞽ"); ("ꞿ", "Ꞿ"); ("ꟁ", "Ꟁ");
    ("ꟃ", "Ꟃ"); ("ꟈ", "Ꟈ"); ("ꟊ", "Ꟊ"); ("ꟑ", "Ꟑ"); ("ꟗ", "Ꟗ"); ("ꟙ", "Ꟙ");
    ("ꟶ", "Ꟶ"); ("ꭓ", "Ꭓ"); ("ꭰ", "Ꭰ"); ("ꭱ", "Ꭱ"); ("ꭲ", "Ꭲ"); ("ꭳ", "Ꭳ");
    ("ꭴ", "Ꭴ"); ("ꭵ", "Ꭵ"); ("ꭶ", "Ꭶ"); ("ꭷ", "Ꭷ"); ("ꭸ", "Ꭸ"); ("ꭹ", "Ꭹ");
    ("ꭺ", "Ꭺ"); ("ꭻ", "Ꭻ"); ("ꭼ", "Ꭼ"); ("ꭽ", "Ꭽ"); ("ꭾ", "Ꭾ"); ("ꭿ", "Ꭿ");
    ("ꮀ", "Ꮀ"); ("ꮁ", "Ꮁ"); ("ꮂ", "Ꮂ"); ("ꮃ", "Ꮃ"); ("ꮄ", "Ꮄ"); ("ꮅ", "Ꮅ");
    ("ꮆ", "Ꮆ"); ("ꮇ", "Ꮇ"); ("ꮈ", "Ꮈ"); ("ꮉ", "Ꮉ"); ("ꮊ", "Ꮊ"); ("ꮋ", "Ꮋ");
    ("ꮌ", "Ꮌ"); ("ꮍ", "Ꮍ"); ("ꮎ", "Ꮎ"); ("ꮏ", "Ꮏ"); ("ꮐ", "Ꮐ"); ("ꮑ", "Ꮑ");
    ("ꮒ", "Ꮒ"); ("ꮓ", "Ꮓ"); ("ꮔ", "Ꮔ"); ("ꮕ", "Ꮕ"); ("ꮖ", "Ꮖ"); ("ꮗ", "Ꮗ");
    ("ꮘ", "Ꮘ"); ("ꮙ", "Ꮙ"); ("ꮚ", "Ꮚ"); ("ꮛ", "Ꮛ"); ("ꮜ", "Ꮜ"); ("ꮝ", "Ꮝ");
    ("ꮞ", "Ꮞ"); ("ꮟ", "Ꮟ"); ("ꮠ", "Ꮠ"); ("ꮡ", "Ꮡ"); ("ꮢ", "Ꮢ"); ("ꮣ", "Ꮣ");
    ("ꮤ", "Ꮤ"); ("ꮥ", "Ꮥ"); ("ꮦ", "Ꮦ"); ("ꮧ", "Ꮧ"); ("ꮨ", "Ꮨ"); ("ꮩ", "Ꮩ");
    ("ꮪ", "Ꮪ"); ("ꮫ", "Ꮫ"); ("ꮬ", "Ꮬ"); ("ꮭ", "Ꮭ"); ("ꮮ", "Ꮮ"); ("ꮯ", "Ꮯ");
    ("ꮰ", "Ꮰ"); ("ꮱ", "Ꮱ"); ("ꮲ", "Ꮲ"); ("ꮳ", "Ꮳ"); ("ꮴ", "Ꮴ"); ("ꮵ", "Ꮵ");
    ("ꮶ", "Ꮶ"); ("ꮷ", "Ꮷ"); ("ꮸ", "Ꮸ"); ("ꮹ", "Ꮹ"); ("ꮺ", "Ꮺ"); ("ꮻ", "Ꮻ");
    ("ꮼ", "Ꮼ"); ("ꮽ", "Ꮽ"); ("ꮾ", "Ꮾ"); ("ꮿ", "Ꮿ"); ("ﬀ", "FF"); ("ﬁ", "FI");
    ("ﬂ", "FL"); ("ﬃ", "FFI"); ("ﬄ", "FFL"); ("ﬅ", "ST"); ("ﬆ", "ST");
    ("ﬓ", "ՄՆ"); ("ﬔ", "ՄԵ"); ("ﬕ", "ՄԻ"); ("ﬖ", "ՎՆ"); ("ﬗ", "ՄԽ");
    ("ａ", "Ａ"); ("ｂ", "Ｂ"); ("ｃ", "Ｃ"); ("ｄ", "Ｄ"); ("ｅ", "Ｅ"); ("ｆ", "Ｆ");
    ("ｇ", "Ｇ"); ("ｈ", "Ｈ"); ("ｉ", "Ｉ"); ("ｊ", "Ｊ"); ("ｋ", "Ｋ"); ("ｌ", "Ｌ");
    ("ｍ", "Ｍ"); ("ｎ", "Ｎ"); ("ｏ", "Ｏ"); ("ｐ", "Ｐ"); ("ｑ", "Ｑ"); ("ｒ", "Ｒ");
    ("ｓ", "Ｓ"); ("ｔ", "Ｔ"); ("ｕ", "Ｕ"); ("ｖ", "Ｖ"); ("ｗ", "Ｗ"); ("ｘ", "Ｘ");
    ("ｙ", "Ｙ"); ("ｚ", "Ｚ")
  ].

(** [s.toUpperCase()] for a text [s] of one character of the Basic
    Multilingual Plane outside ASCII. *)
Definition toUpperCase1 (s : string) : string :=
  match find (fun entry => String.eqb (fst entry) s) upperTable with
  | Some entry => snd entry
  | None => s
  end.

(** The bytes that continue a character in UTF-8. *)
Definition isContinuation (c : ascii) : bool :=
  ((128 <=? code c) && (code c <=? 191))%N.

Definition toLowerCase_char (c : ascii) : ascii :=
  if ((65 <=? code c) && (code c <=? 90))%N
  then ascii_of_N (code c + 32) else c.

Fixpoint toLowerCase (s : string) : string :=
  match s with
  | EmptyString => EmptyString
  | String c r => String (toLowerCase_char c) (toLowerCase r)
  end.

(** *** The [path] module (POSIX flavour) *)

(** The variables of the scanning loop of [path.extname]. *)
Record ExtScan := {
  startDot : Z;
  startPart : Z;
  end_ : Z;
  matchedSlash : bool;
  preDotState : Z
}.

(** The loop [for (let i = path.length - 1; i >= 0; --i)], entered with
    [n = i + 1]. *)
Fixpoint extname_scan (path : string) (n : nat) (st : ExtScan) : ExtScan :=
  match n with
  | O => st
  | S i =>
      match String.get i path with
      | None => st
      | Some c =>
          if Ascii.eqb c "/" then
            if negb (matchedSlash st) then
              {| startDot := startDot st; startPart := Z.of_nat i + 1;
                 end_ := end_ st; matchedSlash := matchedSlash st;
                 preDotState := preDotState st |}
            else extname_scan path i st
          else
            let st1 :=
              if (end_ st =? -1)%Z then
                {| startDot := startDot st; startPart := startPart st;
                   end_ := Z.of_nat i + 1; matchedSlash := false;
                   preDotState := preDotState st |}
              else st in
            let st2 :=
              if Ascii.eqb c "." then
                if (startDot st1 =? -1)%Z then
                  {| startDot := Z.of_nat i; startPart := startPart st1;
                     end_ := end_ st1; matchedSlash := matchedSlash st1;
                     preDotState := preDotState st1 |}
                else if negb (preDotState st1 =? 1)%Z then
                  {| startDot := startDot st1; startPart := startPart st1;
                     end_ := end_ st1; matchedSlash := matchedSlash st1;
                     preDotState := 1 |}
                else st1
              else if negb (startDot st1 =? -1)%Z then
                {| startDot := startDot st1; startPart := startPart st1;
                   end_ := end_ st1; matchedSlash := matchedSlash st1;
                   preDotState := -1 |}
              else st1 in
            extname_scan path i st2
      end
  end.

(** [path.extname(p)] *)
Definition extname (path : string) : string :=
  let st := extname_scan path (String.length path)
              {| startDot := -1; startPart := 0; end_ := -1;
                 matchedSlash := true; preDotState := 0 |} in
  if ((startDot st =? -1) || (end_ st =? -1) || (preDotState st =? 0)
      || (preDotState st =? 1) && (startDot st =? end_ st - 1)
         && (startDot st =? startPart st + 1))%Z
  then ""
  else substring (Z.to_nat (startDot st))
                 (Z.to_nat (end_ st - startDot st)) path.

(** [path.join(a, b, ...)] joins with a slash and normalises.  The script
    joins the relative root [./public/travel] with names read from a
    directory, which hold neither a slash nor a dot segment; on those,
    normalising removes the leading [./] and nothing else. *)
Definition path_join (segments : list string) : string :=
  let joined := join "/" segments in
  if startsWith "./" joined then drop 2 joined else joined.

(** *** [Array.prototype.sort] with the default order on strings

    The default order compares the UTF-16 code units of the strings. *)

(** The UTF-16 code units of the string a text in UTF-8 stands for; a byte
    that starts no character stands for U+FFFD, as when the runtime
    decodes a name. *)
Fixpoint utf16 (s : string) : list N :=
  match s with
  | EmptyString => []
  | String a r =>
      if (code a <? 128)%N then code a :: utf16 r
      else
        match r with
        | EmptyString => [65533%N]
        | String b r2 =>
            if ((194 <=? code a) && (code a <=? 223))%N && isContinuation b
            then ((code a - 192) * 64 + (code b - 128))%N :: utf16 r2
            else
              match r2 with
              | EmptyString => 65533%N :: utf16 r
              | String c r3 =>
                  if ((224 <=? code a) && (code a <=? 239))%N
                     && isContinuation b && isContinuation c
                  then ((code a - 224) * 4096 + (code b - 128) * 64
                        + (code c - 128))%N :: utf16 r3
                  else
                    match r3 with
                    | EmptyString => 65533%N :: utf16 r
                    | String d r4 =>
                        if ((240 <=? code a) && (code a <=? 244))%N
                           && isContinuation b && isContinuation c
                           && isContinuation d
                        then
                          let v := ((code a - 240) * 262144
                                    + (code b - 128) * 4096
                                    + (code c - 128) * 64
                                    + (code d - 128) - 65536)%N in
                          (55296 + v / 1024)%N :: (56320 + v mod 1024)%N
                          :: utf16 r4
                        else 65533%N :: utf16 r
                    end
              end
        end
  end.

(** The order of sequences of code units, the first difference deciding. *)
Fixpoint compare_units (x y : list N) : comparison :=
  match x, y with
  | [], [] => Eq
  | [], _ :: _ => Lt
  | _ :: _, [] => Gt
  | a :: x', b :: y' =>
      match N.compare a b with
      | Eq => compare_units x' y'
      | ne => ne
      end
  end.

(** [x < y] on strings. *)
Definition before (x y : string) : bool :=
  match compare_units (utf16 x) (utf16 y) with
  | Lt => true
  | _ => false
  end.

Fixpoint insert_sorted (x : string) (a : list string) : list string :=
  match a with
  | [] => [x]
  | y :: rest =>
      if before x y then x :: a else y :: insert_sorted x rest
  end.

Fixpoint sort (a : list string) : list string :=
  match a with
  | [] => []
  | x :: rest => insert_sorted x (sort rest)
  end.

End Js.

Import Js.


(** [x] when it is truthy: the value an [if (x)] branch works with. *)
Definition truthy {A} `{Truthy A} (x : option A) : option A :=
  match x with
  | Some a => if ToBoolean a then Some a else None
  | None => None
  end.

(** A loop over an array whose body updates the variables [S] it closes
    over ([for ... of], [forEach]) and may throw. *)
Fixpoint forEach {A S : Type} (a : list A) (body : S -> A -> Exc S) (s : S) : Exc S :=
  match a with
  | [] => inr s
  | x :: rest =>
      match body s x with
      | inl e => inl e
      | inr s' => forEach rest body s'
      end
  end.

(** [a.push(x)] *)
Definition push {A} (a : list A) (x : A) : list A := a ++ [x].

(** ** Data of the script *)

(** A time stamp as the decoder hands it over: a [Date] object, whose time
    value may be [NaN], or the text of a tag it could not revive. *)
Inductive Timestamp :=
| DateObject (time : option Z)
| DateText (text : string).

#[export] Instance Truthy_Timestamp : Truthy Timestamp :=
  fun t => match t with DateObject _ => true | DateText s => ToBoolean s end.

(** The fields the script reads from the record the decoder returns. *)
Record RawMetadata := {
  DateTimeOriginal : option Timestamp;
  DateTime : option Timestamp;
  Make : option string;
  Model : option string;
  latitude : option float;
  longitude : option float;
  ImageDescription : option string;
  UserComment : option string
}.

Record Location := { lat : float; lng : float }.

(** An object is truthy. *)
#[export] Instance Truthy_Location : Truthy Location := fun _ => true.

(** The [metadata] object; [null] is [None]. *)
Record Metadata := {
  date : string;
  camera : string;
  location : option Location;
  description : option string
}.

Definition set_date (v : string) (m : Metadata) : Metadata :=
  {| date := v; camera := camera m; location := location m;
     description := description m |}.

Definition set_camera (v : string) (m : Metadata) : Metadata :=
  {| date := date m; camera := v; location := location m;
     description := description m |}.

Definition set_location (v : Location) (m : Metadata) : Metadata :=
  {| date := date m; camera := camera m; location := Some v;
     description := description m |}.

Definition set_description (v : string) (m : Metadata) : Metadata :=
  {| date := date m; camera := camera m; location := location m;
     description := Some v |}.

(** The elements of the [trips] array. *)
Record Trip := { dir : string; name : string; images : list string }.

(** The entries of [readdirSync(p, { withFileTypes: true })]. *)
Record Dirent := { d_name : string; d_isDirectory : bool }.

(** ** The outside world *)

(** The functions of the [fs] module the script calls. *)
Record FsModule := {
  existsSync : string -> bool;
  readdirSync : string -> Exc (list string);
  readdirSync_withFileTypes : string -> Exc (list Dirent);
  readFileSync : string -> Exc string;
  writeFileSync : string -> string -> Exc unit
}.

(** [exifr.parse] with the options of the script; [None] is [undefined],
    the answer for a file that holds no metadata. *)
Record ExifrModule := {
  parse : string -> Exc (option RawMetadata)
}.

(** What the script asks of the runtime beyond the functions of [Js]:
    [new Date(t).toLocaleDateString('en-US', ...)] with the options of the
    script, which returns a text for every date, [Invalid Date] for one
    that is not valid, and the conversion of a number to a string. *)
Record Runtime := {
  toLocaleDateString : Timestamp -> string;
  Number_toString : float -> string
}.

(** ** The script *)

Definition TRAVEL_DIR : string := "./public/travel".
Definition TEMPLATE_FILE : string := "./templates/travel_template.html".
Definition IMAGE_EXTENSIONS : list string :=
  [".jpg"; ".jpeg"; ".png"; ".gif"; ".webp"].

(** The filter of [getImageFiles].  No character outside ASCII has a
    lower case made of the letters of these extensions, so the ASCII case
    mapping decides the filter as the full one does. *)
Definition isImageFile (file : string) : bool :=
  let ext := toLowerCase (extname file) in
  includes IMAGE_EXTENSIONS ext.

Definition monthNames : list string :=
  ["January"; "February"; "March"; "April"; "May"; "June";
   "July"; "August"; "September"; "October"; "November"; "December"].

(** [monthNames[parseInt(month) - 1] || month] *)
Definition monthName (month : option string) : option string :=
  or_else
    (at_index monthNames
       (option_map (fun n => (n - 1)%Z) (parseInt (ToString month))))
    month.

(** [word.charAt(0).toUpperCase() + word.slice(1)].  The first code unit
    of the word is its first character when that one is in the Basic
    Multilingual Plane: one byte, two or three in UTF-8.  Of a character
    outside it, of four bytes, the first code unit is a surrogate, which
    has no upper case, so that the word comes back as it is. *)
Definition capitalize (word : string) : string :=
  match word with
  | EmptyString => EmptyString
  | String a r =>
      if (code a <? 128)%N then String (toUpperCase_char a) r
      else
        match r with
        | EmptyString => word
        | String b r2 =>
            if ((194 <=? code a) && (code a <=? 223))%N && isContinuation b
            then toUpperCase1 (String a (String b "")) ++ r2
            else
              match r2 with
              | EmptyString => word
              | String c r3 =>
                  if ((224 <=? code a) && (code a <=? 239))%N
                     && isContinuation b && isContinuation c
                  then toUpperCase1 (String a (String b (String c ""))) ++ r3
                  else word
              end
        end
  end.

Definition formatTripName (dirName : string) : string :=
  let parts := split "-" dirName in
  let year := nth_error parts 0 in
  let month := nth_error parts 1 in
  let location := join " " (slice 2 parts) in
  let locationFormatted := join " " (map capitalize (split " " location)) in
  ToString (monthName month) ++ " " ++ ToString year ++ ", " ++ locationFormatted.

(** The record returned when nothing could be read. *)
Definition unknownMetadata : Metadata :=
  {| date := "Unknown date"; camera := "Unknown camera";
     location := None; description := None |}.

Definition MARKER : string := "<!-- PUT CONTENT HERE -->".

Definition NO_TRIPS : string :=
  Eval cbv in html "<div class='no-trips'><h2>No trips found</h2></div>".

Section Generator.

Variable fs : FsModule.
Variable exifr : ExifrModule.
Variable rt : Runtime.

Definition getImageFiles (dirPath : string) : Exc (list string) :=
  catch
    (files <- readdirSync fs dirPath ;;
     ret (sort (filter isImageFile files)))
    (fun error => ret []).

(** The block of [getImageMetadata] that fills [metadata] from the record
    the decoder returned. *)
Definition readMetadata (exifData : RawMetadata) : Metadata :=
  let metadata := unknownMetadata in
  let metadata :=
    match truthy (DateTimeOriginal exifData), truthy (DateTime exifData) with
    | Some t, _ => set_date (toLocaleDateString rt t) metadata
    | None, Some t => set_date (toLocaleDateString rt t) metadata
    | None, None => metadata
    end in
  let metadata :=
    match truthy (Make exifData), truthy (Model exifData) with
    | Some make, Some model => set_camera (make ++ " " ++ model) metadata
    | Some make, None => set_camera make metadata
    | None, Some model => set_camera model metadata
    | None, None => metadata
    end in
  let metadata :=
    match truthy (latitude exifData), truthy (longitude exifData) with
    | Some la, Some lo => set_location {| lat := la; lng := lo |} metadata
    | _, _ => metadata
    end in
  let metadata :=
    match truthy (ImageDescription exifData), truthy (UserComment exifData) with
    | Some text, _ => set_description text metadata
    | None, Some text => set_description text metadata
    | None, None => metadata
    end in
  metadata.

Definition getImageMetadata (imagePath : string) : Exc Metadata :=
  catch
    (exifData <- parse exifr imagePath ;;
     match exifData with
     | None => ret unknownMetadata
     | Some exifData => ret (readMetadata exifData)
     end)
    (fun error => ret unknownMetadata).

(** [locationInfo]: the line with the link to the map, or [''] when the
    location is [null]. *)
Definition locationInfo (metadata : Metadata) : string :=
  match truthy (location metadata) with
  | Some loc =>
      html "<p class='location'>📍 <a href='https://maps.google.com/?q="
      ++ Number_toString rt (lat loc) ++ "," ++ Number_toString rt (lng loc)
      ++ html "' target='_blank'>View on Map</a></p>"
  | None => ""
  end.

(** [descriptionInfo] *)
Definition descriptionInfo (metadata : Metadata) : string :=
  match truthy (description metadata) with
  | Some text => html "<p class='description'>📝 " ++ text ++ "</p>"
  | None => ""
  end.

(** [imageElement]: the block of one image, around the two lines above. *)
Definition imageElement (tripDir tripName imageName : string)
    (metadata : Metadata) (locationInfo descriptionInfo : string) : string :=
  html "
        <div class='image-container'>
            <img src='/public/travel/" ++ tripDir ++ "/" ++ imageName
  ++ html "' alt='" ++ tripName ++ " - " ++ imageName
  ++ html "' loading='lazy'>
            <div class='image-info'>
                <p class='date'>📅 " ++ date metadata ++ html "</p>
                <p class='camera'>📷 " ++ camera metadata ++ "</p>
                " ++ locationInfo ++ "
                " ++ descriptionInfo ++ html "
            </div>
        </div>".

(** [`${n}`] for the length of an array. *)
Definition length_toString (n : nat) : string :=
  NilEmpty.string_of_uint (Nat.to_uint n).

(** The section of one trip around the blocks of its images. *)
Definition tripSection (tripDir tripName : string) (images : list string)
    (imageElements : list string) : string :=
  html "
    <section class='trip-section' id='" ++ tripDir ++ html "'>
        <div class='trip-header'>
            <h2 class='trip-title'>" ++ tripName ++ html "</h2>
            <div class='trip-meta'>
                <span class='trip-count'>" ++ length_toString (List.length images)
  ++ html " photos</span>
            </div>
        </div>
        <div class='gallery'>
            " ++ join "" imageElements ++ "
        </div>
    </section>".

Definition generateTripSection (tripDir tripName : string)
    (images : list string) : Exc string :=
  imageElements <-
    forEach images
      (fun imageElements imageName =>
         let imagePath := path_join [TRAVEL_DIR; tripDir; imageName] in
         metadata <- getImageMetadata imagePath ;;
         let locationInfo := locationInfo metadata in
         let descriptionInfo := descriptionInfo metadata in
         let imageElement :=
           imageElement tripDir tripName imageName metadata
             locationInfo descriptionInfo in
         ret (push imageElements imageElement))
      [] ;;
  ret (tripSection tripDir tripName images imageElements).

(** The text put in place of the marker. *)
Definition pageContent (trips : list Trip) (tripSections : list string) : string :=
  if (0 <? List.length trips)%nat then join "" tripSections else NO_TRIPS.

(** [None] is [null], returned when the template cannot be read. *)
Definition generateTravelPage (trips : list Trip) : Exc (option string) :=
  tripSections <-
    forEach trips
      (fun tripSections trip =>
         section <- generateTripSection (dir trip) (name trip) (images trip) ;;
         ret (push tripSections section))
      [] ;;
  let content := pageContent trips tripSections in
  catch
    (template <- readFileSync fs TEMPLATE_FILE ;;
     let template := replace template MARKER content in
     ret (Some template))
    (fun error => ret None).

(** The body of the [forEach] of [main]. *)
Definition collectTrip (trips : list Trip) (tripDir : string) : Exc (list Trip) :=
  let tripPath := path_join [TRAVEL_DIR; tripDir] in
  images <- getImageFiles tripPath ;;
  if (0 <? List.length images)%nat then
    let tripName := formatTripName tripDir in
    ret (push trips {| dir := tripDir; name := tripName; images := images |})
  else ret trips.

(** The sorted names of the directories under the root. *)
Definition tripDirsOf (dirents : list Dirent) : list string :=
  sort (map d_name (filter d_isDirectory dirents)).

(** [main] returns the text it wrote to [travel.html], if it wrote any. *)
Definition main : Exc (option string) :=
  if negb (existsSync fs TRAVEL_DIR) then ret None
  else if negb (existsSync fs TEMPLATE_FILE) then ret None
  else
    dirents <- readdirSync_withFileTypes fs TRAVEL_DIR ;;
    let tripDirs := tripDirsOf dirents in
    trips <- forEach tripDirs collectTrip [] ;;
    travelHtml <- generateTravelPage trips ;;
    match truthy travelHtml with
    | Some text => writeFileSync fs "travel.html" text ;; ret (Some text)
    | None => ret None
    end.

End Generator.

(** ** The claims of the specification in their own words

    Presence of a field, as the specification has it, is the field being
    there, whatever its value. *)

Definition camera_by_presence (exifData : RawMetadata) : string :=
  match Make exifData, Model exifData with
  | Some make, Some model => make ++ " " ++ model
  | Some make, None => make
  | None, Some model => model
  | None, None => "Unknown camera"
  end.

Definition description_by_presence (exifData : RawMetadata) : option string :=
  match ImageDescription exifData with
  | Some text => Some text
  | None => UserComment exifData
  end.

Definition both_coordinates_present (exifData : RawMetadata) : Prop :=
  latitude exifData <> None /\ longitude exifData <> None.

(** [pat] occurs in [s]. *)
Definition occurs (pat s : string) : Prop :=
  exists before after, s = before ++ pat ++ after.

(** [before] and [after] are the text around the first occurrence of
    [pat] in [s]. *)
Definition first_occurrence (pat s before after : string) : Prop :=
  s = before ++ pat ++ after /\
  forall before' after',
    s = before' ++ pat ++ after' -> String.length before <= String.length before'.

(** ** What the loops of the script compute

    [getImageMetadata] never throws, so the loops that call it have a
    closed form. *)

Definition metadataOf (exifr : ExifrModule) (rt : Runtime)
    (imagePath : string) : Metadata :=
  match getImageMetadata exifr rt imagePath with
  | inr metadata => metadata
  | inl _ => unknownMetadata
  end.

(** The block [generateTripSection] pushes for one image. *)
Definition renderedImage (exifr : ExifrModule) (rt : Runtime)
    (tripDir tripName imageName : string) : string :=
  let metadata := metadataOf exifr rt (path_join [TRAVEL_DIR; tripDir; imageName]) in
  imageElement tripDir tripName imageName metadata
    (locationInfo rt metadata) (descriptionInfo metadata).

(** The section [generateTravelPage] pushes for one trip. *)
Definition renderedSection (exifr : ExifrModule) (rt : Runtime)
    (trip : Trip) : string :=
  tripSection (dir trip) (name trip) (images trip)
    (map (renderedImage exifr rt (dir trip) (name trip)) (images trip)).

(** The images [getImageFiles] finds in a directory. *)
Definition imagesOf (fs : FsModule) (dirPath : string) : list string :=
  match readdirSync fs dirPath with
  | inr files => sort (filter isImageFile files)
  | inl _ => []
  end.

(** The trips the [forEach] of [main] pushes for one directory. *)
Definition tripsOfDir (fs : FsModule) (tripDir : string) : list Trip :=
  let images := imagesOf fs (path_join [TRAVEL_DIR; tripDir]) in
  if (0 <? List.length images)%nat
  then [{| dir := tripDir; name := formatTripName tripDir; images := images |}]
  else [].

(** A directory holds an image when it can be listed and one of its
    entries passes the filter on the extension. *)
Definition hasImages (fs : FsModule) (tripDir : string) : Prop :=
  exists files file,
    readdirSync fs (path_join [TRAVEL_DIR; tripDir]) = inr files /\
    In file files /\ isImageFile file = true.

(** A text built around a slot: what is put in the slot stands in it as
    it is, between two texts that do not depend on it. *)
Definition slot (f : string -> string) : Prop :=
  exists pre post, forall info, f info = pre ++ info ++ post.

(** ** Sample worlds, to run the script on *)

Definition rt_sample : Runtime :=
  {| toLocaleDateString := fun t =>
       match t with
       | DateObject (Some _) => "Friday, July 14, 2023, 10:30 AM"
       | _ => "Invalid Date"
       end;
     Number_toString := fun x =>
       if is_zero x then "0" else if is_nan x then "NaN" else "77.5" |}.

(** A decoder that answers every file with the same record. *)
Definition exifr_const (answer : Exc (option RawMetadata)) : ExifrModule :=
  {| parse := fun _ => answer |}.

Definition noTags : RawMetadata :=
  {| DateTimeOriginal := None; DateTime := None; Make := None; Model := None;
     latitude := None; longitude := None;
     ImageDescription := None; UserComment := None |}.

(** A photo whose maker tag is there but empty. *)
Definition emptyMake : RawMetadata :=
  {| DateTimeOriginal := None; DateTime := None;
     Make := Some ""; Model := Some "X100";
     latitude := None; longitude := None;
     ImageDescription := None; UserComment := None |}.

(** A photo whose description tag is there but empty. *)
Definition emptyDescription : RawMetadata :=
  {| DateTimeOriginal := None; DateTime := None; Make := None; Model := None;
     latitude := None; longitude := None;
     ImageDescription := Some ""; UserComment := Some "Sunset" |}.

(** A photo taken on the equator. *)
Definition onEquator : RawMetadata :=
  {| DateTimeOriginal := None; DateTime := None; Make := None; Model := None;
     latitude := Some 0%float; longitude := Some 77.5%float;
     ImageDescription := None; UserComment := None |}.

(** A photo whose description holds two dollars. *)
Definition dollarTags : RawMetadata :=
  {| DateTimeOriginal := None; DateTime := None; Make := None; Model := None;
     latitude := None; longitude := None;
     ImageDescription := Some "Cheap eats $$"; UserComment := None |}.

(** A file system with a template, the entries of the root and the
    listing of every directory; every path exists and can be written. *)
Definition fs_with (template : string) (root : list Dirent)
    (listing : string -> Exc (list string)) : FsModule :=
  {| existsSync := fun _ => true;
     readdirSync := listing;
     readdirSync_withFileTypes := fun _ => inr root;
     readFileSync := fun _ => inr template;
     writeFileSync := fun _ _ => inr tt |}.

(** Three entries under the root: an album with two photos and a note, an
    album without a photo, and a file. *)
Definition root_sample : list Dirent :=
  [ {| d_name := "2023-07-paris-france"; d_isDirectory := true |};
    {| d_name := "2022-01-empty"; d_isDirectory := true |};
    {| d_name := "notes.txt"; d_isDirectory := false |} ].

Definition listing_sample (dirPath : string) : Exc (list string) :=
  if String.eqb dirPath "public/travel/2023-07-paris-france"
  then inr ["b.JPG"; "notes.txt"; "a.jpg"]
  else if String.eqb dirPath "public/travel/2022-01-empty"
  then inr ["readme.md"]
  else inl "ENOENT: no such file or directory".

Definition template_sample : string :=
  "<main><!-- PUT CONTENT HERE --></main>".

(** A template with the marker twice. *)
Definition template_twice : string :=
  "<main><!-- PUT CONTENT HERE --></main><!-- PUT CONTENT HERE -->".

Definition fs_sample : FsModule :=
  fs_with template_sample root_sample listing_sample.

Definition trip_sample : Trip :=
  {| dir := "2023-07-paris-france"; name := "July 2023, Paris France";
     images := ["a.jpg"] |}.

(** A photo with every tag. *)
Definition fullTags : RawMetadata :=
  {| DateTimeOriginal := Some (DateObject (Some 1689330600000%Z));
     DateTime := Some (DateText "2023:07:14 10:30:00");
     Make := Some "FUJIFILM"; Model := Some "X100";
     latitude := Some 77.5%float; longitude := Some 77.5%float;
     ImageDescription := Some "Harbour"; UserComment := Some "Sunset" |}.

(** ** Notions used to state further properties *)

(** The order [sort] puts names in: the code units of [x] do not come
    after those of [y]. *)
Definition ordered (x y : string) : Prop :=
  compare_units (utf16 x) (utf16 y) <> Gt.

(** Every byte of [s] is an ASCII character. *)
Fixpoint isAscii (s : string) : bool :=
  match s with
  | EmptyString => true
  | String c r => (code c <? 128)%N && isAscii r
  end.

(** [s] with every character changed by [f]. *)
Fixpoint mapChars (f : ascii -> ascii) (s : string) : string :=
  match s with
  | EmptyString => EmptyString
  | String c r => String (f c) (mapChars f r)
  end.

(** A dash becomes a space. *)
Definition dashToSpace (c : ascii) : ascii :=
  if Ascii.eqb c "-" then " "%char else c.

(** The character [c] is in [s]. *)
Fixpoint hasChar (c : ascii) (s : string) : bool :=
  match s with
  | EmptyString => false
  | String d r => Ascii.eqb d c || hasChar c r
  end.

(** One pass over a text that puts in upper case the first character and
    every character that follows a space; [start] tells whether the next
    character is such a one. *)
Fixpoint upperAfterSpace (start : bool) (s : string) : string :=
  match s with
  | EmptyString => EmptyString
  | String c r =>
      String (if start then toUpperCase_char c else c)
             (upperAfterSpace (Ascii.eqb c " ") r)
  end.

(** The variables of the loop of [path.extname] before its first turn. *)
Definition scanStart : ExtScan :=
  {| startDot := -1; startPart := 0; end_ := -1;
     matchedSlash := true; preDotState := 0 |}.

(** What the loop of [path.extname] knows of a path without a slash when
    the characters from index [n] on have been looked at: the end of the
    name, the last dot, if there is one, and whether a character comes
    before it. *)
Definition scanned (path : string) (n : nat) (st : ExtScan) : Prop :=
  startPart st = 0%Z /\
  ((n = String.length path /\ st = scanStart) \/
   (n < String.length path /\
    end_ st = Z.of_nat (String.length path) /\
    ((startDot st = (-1)%Z /\ preDotState st = 0%Z /\
      forall j, n <= j -> String.get j path <> Some "."%char) \/
     (exists d,
        startDot st = Z.of_nat d /\ n <= d /\
        String.get d path = Some "."%char /\
        (forall j, d < j -> String.get j path <> Some "."%char) /\
        (preDotState st = 0%Z <-> d = n))))).

(** [k] zeros in a row. *)
Fixpoint zeros (k : nat) : string :=
  match k with
  | O => EmptyString
  | S k' => String "0" (zeros k')
  end.

(** The decimal digits. *)
Definition isDigit (c : ascii) : bool :=
  ((48 <=? code c) && (code c <=? 57))%N.

Fixpoint allDigits (s : string) : bool :=
  match s with
  | EmptyString => true
  | String c r => isDigit c && allDigits r
  end.

(** The test of [main] on the images of a directory. *)
Definition holdsImages (fs : FsModule) (tripDir : string) : bool :=
  (0 <? List.length (imagesOf fs (path_join [TRAVEL_DIR; tripDir])))%nat.

(** The page [main] builds from the entries of the root and the template. *)
Definition pageOf (fs : FsModule) (exifr : ExifrModule) (rt : Runtime)
    (dirents : list Dirent) (template : string) : string :=
  let trips := flat_map (tripsOfDir fs) (tripDirsOf dirents) in
  replace template MARKER
    (pageContent trips (map (renderedSection exifr rt) trips)).

(** A file system whose root exists and cannot be listed. *)
Definition fs_unlistable : FsModule :=
  {| existsSync := fun _ => true;
     readdirSync := listing_sample;
     readdirSync_withFileTypes := fun _ => inl "ENOTDIR: not a directory";
     readFileSync := fun _ => inr template_sample;
     writeFileSync := fun _ _ => inr tt |}.

(** A file system without the template file. *)
Definition fs_no_template : FsModule :=
  {| existsSync := fun p => negb (String.eqb p TEMPLATE_FILE);
     readdirSync := listing_sample;
     readdirSync_withFileTypes := fun _ => inr root_sample;
     readFileSync := fun _ => inl "ENOENT: no such file or directory";
     writeFileSync := fun _ _ => inr tt |}.

(** A decoder that fails on every file. *)
Definition exifr_failing : ExifrModule :=
  exifr_const (inl "Unknown file format").

(** A photo with the fallback time stamp only. *)
Definition dateTimeOnly : RawMetadata :=
  {| DateTimeOriginal := Some (DateText "");
     DateTime := Some (DateObject (Some 1689330600000%Z));
     Make := None; Model := None; latitude := None; longitude := None;
     ImageDescription := None; UserComment := None |}.

(** * Properties *)

(** ** The model on small inputs *)

Example parseInt_07 : parseInt "07" = Some 7%Z.
Proof. reflexivity. Qed.

Example parseInt_hex : parseInt " 0xC" = Some 12%Z.
Proof. reflexivity. Qed.

Example parseInt_nan : parseInt "july" = None.
Proof. reflexivity. Qed.

Example extname_upper : extname "IMG_0001.JPG" = ".JPG".
Proof. reflexivity. Qed.

Example extname_hidden : extname ".jpg" = "".
Proof. reflexivity. Qed.

Example extname_dots : extname "..jpg" = ".jpg".
Proof. reflexivity. Qed.

Example split_trip : split "-" "2023-07-paris-france" = ["2023"; "07"; "paris"; "france"].
Proof. reflexivity. Qed.

Example replace_dollar : replace "a-M-b-M" "M" "<$&$$>" = "a-<M$>-b-M".
Proof. reflexivity. Qed.

Example parseInt_junk : parseInt "7.9 or so" = Some 7%Z.
Proof. reflexivity. Qed.

Example parseInt_undefined : parseInt (ToString None) = None.
Proof. reflexivity. Qed.

Example formatTripName_short : formatTripName "solo" = "undefined solo, ".
Proof. reflexivity. Qed.

Example formatTripName_casing :
  formatTripName "2021-3-new-york-NY" = "March 2021, New York NY".
Proof. reflexivity. Qed.

Example isImageFile_mixed :
  map isImageFile ["a.jpg"; "b.JPeG"; "c.webp"; ".png"; "d.tiff"; "e.jpg.txt"; "gif"]
  = [true; true; true; false; false; false; false].
Proof. vm_compute. reflexivity. Qed.

Example sort_names : sort ["b.JPG"; "a.jpg"; "B.png"; "10.gif"; "2.gif"]
  = ["10.gif"; "2.gif"; "B.png"; "a.jpg"; "b.JPG"].
Proof. reflexivity. Qed.

Example readMetadata_noTags : readMetadata rt_sample noTags = unknownMetadata.
Proof. reflexivity. Qed.

Example readMetadata_fullTags :
  readMetadata rt_sample fullTags =
  {| date := "Friday, July 14, 2023, 10:30 AM"; camera := "FUJIFILM X100";
     location := Some {| lat := 77.5; lng := 77.5 |};
     description := Some "Harbour" |}.
Proof. reflexivity. Qed.

Example sort_code_units :
  sort ["～.jpg"; "😀.jpg"; "z.jpg"; "é.jpg"] = ["z.jpg"; "é.jpg"; "😀.jpg"; "～.jpg"].
Proof. vm_compute. reflexivity. Qed.

Example formatTripName_accent :
  formatTripName "2023-07-école-ßen-😀x" = "July 2023, École SSen 😀x".
Proof. vm_compute. reflexivity. Qed.

Example path_join_image :
  path_join [TRAVEL_DIR; "2023-07-paris-france"; "a.jpg"]
  = "public/travel/2023-07-paris-france/a.jpg".
Proof. reflexivity. Qed.


(** ** Reading the metadata of one image *)

Section MetadataFacts.

Context (exifr : ExifrModule) (rt : Runtime).

Lemma getImageMetadata_thrown imagePath e :
  parse exifr imagePath = inl e ->
  getImageMetadata exifr rt imagePath = inr unknownMetadata.
Proof.
  intros Hparse. unfold getImageMetadata. simpl. now rewrite Hparse.
Qed.

Lemma getImageMetadata_no_data imagePath :
  parse exifr imagePath = inr None ->
  getImageMetadata exifr rt imagePath = inr unknownMetadata.
Proof.
  intros Hparse. unfold getImageMetadata. simpl. now rewrite Hparse.
Qed.

Lemma getImageMetadata_decoded imagePath exifData :
  parse exifr imagePath = inr (Some exifData) ->
  getImageMetadata exifr rt imagePath = inr (readMetadata rt exifData).
Proof.
  intros Hparse. unfold getImageMetadata. simpl. now rewrite Hparse.
Qed.

Lemma getImageMetadata_returns imagePath :
  exists metadata, getImageMetadata exifr rt imagePath = inr metadata.
Proof.
  destruct (parse exifr imagePath) as [e | [exifData | ]] eqn:Hparse.
  - exists unknownMetadata. now apply getImageMetadata_thrown with e.
  - exists (readMetadata rt exifData). now apply getImageMetadata_decoded.
  - exists unknownMetadata. now apply getImageMetadata_no_data.
Qed.

End MetadataFacts.

(** What [truthy] lets through. *)

Lemma truthy_Some {A} `{Truthy A} (x : option A) (a : A) :
  truthy x = Some a <-> x = Some a /\ ToBoolean a = true.
Proof.
  unfold truthy. destruct x as [b | ].
  - destruct (ToBoolean b) eqn:Hb; split.
    + intros [= ->]. auto.
    + intros [[= ->] _]. reflexivity.
    + discriminate.
    + intros [[= ->] Ha]. congruence.
  - split; [discriminate | intros [? _]; discriminate].
Qed.

Lemma truthy_None {A} `{Truthy A} (x : option A) :
  truthy x = None <-> x = None \/ exists a, x = Some a /\ ToBoolean a = false.
Proof.
  unfold truthy. destruct x as [b | ].
  - destruct (ToBoolean b) eqn:Hb; split.
    + discriminate.
    + intros [? | (a & [= ->] & Ha)]; [discriminate | congruence].
    + intros _. right. now exists b.
    + reflexivity.
  - split; auto.
Qed.

Lemma ToBoolean_string (s : string) : ToBoolean s = true <-> s <> "".
Proof.
  destruct s; cbn; split; intros; congruence.
Qed.

Lemma truthy_string_Some (x : option string) (s : string) :
  x = Some s -> s <> "" -> truthy x = Some s.
Proof.
  intros -> Hs. apply truthy_Some. split; [reflexivity | now apply ToBoolean_string].
Qed.

Lemma truthy_string_None (x : option string) :
  x = None \/ x = Some "" -> truthy x = None.
Proof.
  intros [-> | ->]; reflexivity.
Qed.

Lemma truthy_string_inv (x : option string) (s : string) :
  truthy x = Some s -> x = Some s /\ s <> "".
Proof.
  intros H. apply truthy_Some in H as [-> H]. split; [reflexivity | now apply ToBoolean_string].
Qed.

Lemma ToBoolean_number (x : float) :
  ToBoolean x = true <-> is_zero x = false /\ is_nan x = false.
Proof.
  unfold ToBoolean, Truthy_number.
  destruct (is_zero x), (is_nan x); cbn; intuition congruence.
Qed.

(** The fields of the record [readMetadata] builds, one by one. *)

Ltac readMetadata_cases exifData :=
  unfold readMetadata;
  destruct (truthy (DateTimeOriginal exifData)), (truthy (DateTime exifData)),
    (truthy (Make exifData)), (truthy (Model exifData)),
    (truthy (latitude exifData)), (truthy (longitude exifData)),
    (truthy (ImageDescription exifData)), (truthy (UserComment exifData)).

Lemma date_readMetadata rt exifData :
  date (readMetadata rt exifData) =
  match truthy (DateTimeOriginal exifData), truthy (DateTime exifData) with
  | Some t, _ => toLocaleDateString rt t
  | None, Some t => toLocaleDateString rt t
  | None, None => "Unknown date"
  end.
Proof.
  readMetadata_cases exifData; reflexivity.
Qed.

Lemma camera_readMetadata rt exifData :
  camera (readMetadata rt exifData) =
  match truthy (Make exifData), truthy (Model exifData) with
  | Some make, Some model => make ++ " " ++ model
  | Some make, None => make
  | None, Some model => model
  | None, None => "Unknown camera"
  end.
Proof.
  readMetadata_cases exifData; reflexivity.
Qed.

Lemma location_readMetadata rt exifData :
  location (readMetadata rt exifData) =
  match truthy (latitude exifData), truthy (longitude exifData) with
  | Some la, Some lo => Some {| lat := la; lng := lo |}
  | _, _ => None
  end.
Proof.
  readMetadata_cases exifData; reflexivity.
Qed.

Lemma description_readMetadata rt exifData :
  description (readMetadata rt exifData) =
  match truthy (ImageDescription exifData), truthy (UserComment exifData) with
  | Some text, _ => Some text
  | None, Some text => Some text
  | None, None => None
  end.
Proof.
  readMetadata_cases exifData; reflexivity.
Qed.

(** C1. [getImageMetadata] returns for every path, whatever the decoder
    does; when the decoder throws, or finds no data, what it returns is the
    record of the fallback values: the date [Unknown date], the camera
    [Unknown camera], no location and no description. *)
Theorem getImageMetadata_never_throws exifr rt imagePath :
  (exists metadata, getImageMetadata exifr rt imagePath = inr metadata) /\
  ((exists e, parse exifr imagePath = inl e) \/ parse exifr imagePath = inr None ->
   getImageMetadata exifr rt imagePath =
   inr {| date := "Unknown date"; camera := "Unknown camera";
          location := None; description := None |}).
Proof.
  split.
  - apply getImageMetadata_returns.
  - intros [[e Hparse] | Hparse].
    + now apply getImageMetadata_thrown with e.
    + now apply getImageMetadata_no_data.
Qed.

Lemma getImageMetadata_never_throws_witness :
  getImageMetadata (exifr_const (inl "ENOENT: no such file")) rt_sample
    "public/travel/2023-07-paris-france/a.jpg"
  = inr {| date := "Unknown date"; camera := "Unknown camera";
           location := None; description := None |}.
Proof.
  apply (getImageMetadata_never_throws
           (exifr_const (inl "ENOENT: no such file")) rt_sample
           "public/travel/2023-07-paris-france/a.jpg").
  left. exists "ENOENT: no such file". reflexivity.
Defined.

Lemma append_nonempty_l (s t : string) : s <> "" -> s ++ t <> "".
Proof.
  destruct s; [congruence | discriminate].
Qed.

(** Whatever [getImageMetadata] returns is the fallback record or was
    read from the record of the decoder. *)
Lemma getImageMetadata_inv exifr rt imagePath metadata :
  getImageMetadata exifr rt imagePath = inr metadata ->
  metadata = unknownMetadata \/
  exists exifData,
    parse exifr imagePath = inr (Some exifData) /\
    metadata = readMetadata rt exifData.
Proof.
  intros Hget.
  destruct (parse exifr imagePath) as [e | [exifData | ]] eqn:Hparse.
  - rewrite (getImageMetadata_thrown exifr rt imagePath e Hparse) in Hget.
    left. congruence.
  - rewrite (getImageMetadata_decoded exifr rt imagePath exifData Hparse) in Hget.
    right. exists exifData. split; congruence.
  - rewrite (getImageMetadata_no_data exifr rt imagePath Hparse) in Hget.
    left. congruence.
Qed.

(** C6. Given that the date formatter of the runtime never returns the
    empty text, every record [getImageMetadata] returns has a date and a
    camera that are not empty; its location, when there is one, holds the
    latitude and the longitude of the decoder, both of them numbers other
    than zero and NaN; its description, when there is one, is not empty. *)
Theorem metadata_fully_populated exifr rt imagePath metadata :
  (forall t, toLocaleDateString rt t <> "") ->
  getImageMetadata exifr rt imagePath = inr metadata ->
  date metadata <> "" /\
  camera metadata <> "" /\
  (forall l, location metadata = Some l ->
     exists exifData,
       parse exifr imagePath = inr (Some exifData) /\
       latitude exifData = Some (lat l) /\ longitude exifData = Some (lng l) /\
       ToBoolean (lat l) = true /\ ToBoolean (lng l) = true) /\
  (forall text, description metadata = Some text -> text <> "").
Proof.
  intros Hfmt Hget.
  apply getImageMetadata_inv in Hget as [-> | (exifData & Hparse & ->)].
  - cbn. repeat split; try discriminate.
  - repeat split.
    + rewrite date_readMetadata.
      destruct (truthy (DateTimeOriginal exifData));
        [apply Hfmt | destruct (truthy (DateTime exifData))];
        [apply Hfmt | discriminate].
    + rewrite camera_readMetadata.
      destruct (truthy (Make exifData)) as [make | ] eqn:Hmake;
        destruct (truthy (Model exifData)) as [model | ] eqn:Hmodel.
      * apply append_nonempty_l. now apply truthy_string_inv in Hmake.
      * now apply truthy_string_inv in Hmake.
      * now apply truthy_string_inv in Hmodel.
      * discriminate.
    + intros l. rewrite location_readMetadata.
      destruct (truthy (latitude exifData)) as [la | ] eqn:Hla; [ | discriminate].
      destruct (truthy (longitude exifData)) as [lo | ] eqn:Hlo; [ | discriminate].
      intros [= <-]. exists exifData. cbn.
      apply truthy_Some in Hla as [Hla Hla'].
      apply truthy_Some in Hlo as [Hlo Hlo'].
      auto.
    + intros text. rewrite description_readMetadata.
      destruct (truthy (ImageDescription exifData)) as [d | ] eqn:Hd.
      * intros [= <-]. now apply truthy_string_inv in Hd.
      * destruct (truthy (UserComment exifData)) as [u | ] eqn:Hu; [ | discriminate].
        intros [= <-]. now apply truthy_string_inv in Hu.
Qed.

Lemma rt_sample_date_nonempty : forall t, toLocaleDateString rt_sample t <> "".
Proof.
  intros [[ms | ] | text]; discriminate.
Qed.

Lemma metadata_fully_populated_witness :
  date (readMetadata rt_sample fullTags) <> "" /\
  camera (readMetadata rt_sample fullTags) <> "" /\
  (forall l, location (readMetadata rt_sample fullTags) = Some l ->
     exists exifData,
       parse (exifr_const (inr (Some fullTags))) "a.jpg" = inr (Some exifData) /\
       latitude exifData = Some (lat l) /\ longitude exifData = Some (lng l) /\
       ToBoolean (lat l) = true /\ ToBoolean (lng l) = true) /\
  (forall text, description (readMetadata rt_sample fullTags) = Some text -> text <> "").
Proof.
  apply (metadata_fully_populated (exifr_const (inr (Some fullTags))) rt_sample
           "a.jpg" (readMetadata rt_sample fullTags)).
  - exact rt_sample_date_nonempty.
  - reflexivity.
Defined.

(** C7, as the specification states it, fails: a maker tag that is there
    but empty is passed over, and the camera is the model alone. *)
Lemma camera_by_presence_counterexample :
  exists metadata,
    getImageMetadata (exifr_const (inr (Some emptyMake))) rt_sample "a.jpg"
    = inr metadata /\
    camera metadata = "X100" /\
    camera_by_presence emptyMake = " X100" /\
    camera metadata <> camera_by_presence emptyMake.
Proof.
  exists (readMetadata rt_sample emptyMake).
  repeat split. discriminate.
Qed.

(** C7, amended. A tag counts when it is there and not empty.  The camera
    is [Make Model] when both tags count, the one that counts when only one
    does, and [Unknown camera] when none does. *)
Theorem camera_of_nonempty_tags exifr rt imagePath exifData :
  parse exifr imagePath = inr (Some exifData) ->
  exists metadata,
    getImageMetadata exifr rt imagePath = inr metadata /\
    (forall make model,
       Make exifData = Some make -> make <> "" ->
       Model exifData = Some model -> model <> "" ->
       camera metadata = make ++ " " ++ model) /\
    (forall make,
       Make exifData = Some make -> make <> "" ->
       Model exifData = None \/ Model exifData = Some "" ->
       camera metadata = make) /\
    (forall model,
       Make exifData = None \/ Make exifData = Some "" ->
       Model exifData = Some model -> model <> "" ->
       camera metadata = model) /\
    (Make exifData = None \/ Make exifData = Some "" ->
     Model exifData = None \/ Model exifData = Some "" ->
     camera metadata = "Unknown camera").
Proof.
  intros Hparse. exists (readMetadata rt exifData).
  split; [now apply getImageMetadata_decoded | ].
  rewrite camera_readMetadata. repeat split.
  - intros make model Hmake Hmake' Hmodel Hmodel'.
    now rewrite (truthy_string_Some _ _ Hmake Hmake'),
                (truthy_string_Some _ _ Hmodel Hmodel').
  - intros make Hmake Hmake' Hmodel.
    now rewrite (truthy_string_Some _ _ Hmake Hmake'),
                (truthy_string_None _ Hmodel).
  - intros model Hmake Hmodel Hmodel'.
    now rewrite (truthy_string_None _ Hmake),
                (truthy_string_Some _ _ Hmodel Hmodel').
  - intros Hmake Hmodel.
    now rewrite (truthy_string_None _ Hmake), (truthy_string_None _ Hmodel).
Qed.

Lemma camera_of_nonempty_tags_witness :
  exists metadata,
    getImageMetadata (exifr_const (inr (Some fullTags))) rt_sample "a.jpg"
    = inr metadata /\
    camera metadata = "FUJIFILM X100".
Proof.
  destruct (camera_of_nonempty_tags (exifr_const (inr (Some fullTags)))
              rt_sample "a.jpg" fullTags eq_refl)
    as (metadata & Hget & Hboth & _).
  exists metadata. split; [exact Hget | ].
  apply (Hboth "FUJIFILM" "X100"); (reflexivity || discriminate).
Defined.

(** C8, as the specification states it, fails: a description tag that is
    there but empty is passed over in favour of the user comment. *)
Lemma description_by_presence_counterexample :
  exists metadata,
    getImageMetadata (exifr_const (inr (Some emptyDescription))) rt_sample "a.jpg"
    = inr metadata /\
    description metadata = Some "Sunset" /\
    description_by_presence emptyDescription = Some "" /\
    description metadata <> description_by_presence emptyDescription.
Proof.
  exists (readMetadata rt_sample emptyDescription).
  repeat split. discriminate.
Qed.

(** C8, amended. A tag counts when it is there and not empty.  The
    description is the image description when that tag counts, else the
    user comment when that tag counts, else there is none. *)
Theorem description_of_nonempty_tags exifr rt imagePath exifData :
  parse exifr imagePath = inr (Some exifData) ->
  exists metadata,
    getImageMetadata exifr rt imagePath = inr metadata /\
    (forall text,
       ImageDescription exifData = Some text -> text <> "" ->
       description metadata = Some text) /\
    (forall text,
       ImageDescription exifData = None \/ ImageDescription exifData = Some "" ->
       UserComment exifData = Some text -> text <> "" ->
       description metadata = Some text) /\
    (ImageDescription exifData = None \/ ImageDescription exifData = Some "" ->
     UserComment exifData = None \/ UserComment exifData = Some "" ->
     description metadata = None).
Proof.
  intros Hparse. exists (readMetadata rt exifData).
  split; [now apply getImageMetadata_decoded | ].
  rewrite description_readMetadata. repeat split.
  - intros text Hd Hd'. now rewrite (truthy_string_Some _ _ Hd Hd').
  - intros text Hd Hu Hu'.
    now rewrite (truthy_string_None _ Hd), (truthy_string_Some _ _ Hu Hu').
  - intros Hd Hu.
    now rewrite (truthy_string_None _ Hd), (truthy_string_None _ Hu).
Qed.

Lemma description_of_nonempty_tags_witness :
  exists metadata,
    getImageMetadata (exifr_const (inr (Some emptyDescription))) rt_sample "a.jpg"
    = inr metadata /\
    description metadata = Some "Sunset".
Proof.
  destruct (description_of_nonempty_tags
              (exifr_const (inr (Some emptyDescription)))
              rt_sample "a.jpg" emptyDescription eq_refl)
    as (metadata & Hget & _ & Hcomment & _).
  exists metadata. split; [exact Hget | ].
  apply (Hcomment "Sunset"); [right; reflexivity | reflexivity | discriminate].
Defined.

(** ** The name of a trip *)

Lemma monthNames_in_range (n : Z) :
  (1 <= n <= 12)%Z ->
  exists name,
    nth_error monthNames (Z.to_nat (n - 1)) = Some name /\ ToBoolean name = true.
Proof.
  intros Hn.
  assert (Hcases : (n = 1 \/ n = 2 \/ n = 3 \/ n = 4 \/ n = 5 \/ n = 6 \/
                    n = 7 \/ n = 8 \/ n = 9 \/ n = 10 \/ n = 11 \/ n = 12)%Z)
    by lia.
  repeat (destruct Hcases as [-> | Hcases]; [eexists; split; reflexivity | ]).
  subst n. eexists; split; reflexivity.
Qed.

Lemma monthNames_out_of_range (n : Z) :
  (n < 1 \/ 12 < n)%Z ->
  at_index monthNames (Some (n - 1)%Z) = None.
Proof.
  intros Hn. unfold at_index.
  destruct (Z.leb_spec 0 (n - 1)) as [Hpos | Hneg]; [ | reflexivity].
  apply nth_error_None. cbn. lia.
Qed.

(** The month of a trip whose directory name has a second part. *)
Lemma monthName_in_range (month : string) (n : Z) :
  parseInt month = Some n -> (1 <= n <= 12)%Z ->
  exists name,
    nth_error monthNames (Z.to_nat (n - 1)) = Some name /\
    monthName (Some month) = Some name.
Proof.
  intros Hparse Hn.
  destruct (monthNames_in_range n Hn) as (name & Hnth & Htrue).
  exists name. split; [exact Hnth | ].
  unfold monthName, or_else, at_index. cbn [ToString option_map].
  rewrite Hparse. cbn [option_map].
  destruct (Z.leb_spec 0 (n - 1)) as [_ | Hneg]; [ | lia].
  rewrite Hnth. cbn. now rewrite Htrue.
Qed.

Lemma monthName_fallback (month : string) :
  parseInt month = None \/
  (exists n, parseInt month = Some n /\ (n < 1 \/ 12 < n)%Z) ->
  monthName (Some month) = Some month.
Proof.
  unfold monthName, or_else. cbn [ToString].
  intros [-> | (n & -> & Hn)].
  - reflexivity.
  - cbn [option_map]. now rewrite monthNames_out_of_range.
Qed.

(** C3. For a directory name whose second part, between dashes, is
    [month], the name of the trip starts with the month, a space, the
    year.  The month is the entry of the table of the twelve month names
    that [parseInt] of the second part selects when that number is from 1
    to 12, and the second part as it stands when [parseInt] gives no number
    or a number out of that range.  So [2023-07-paris-france] is
    [July 2023, Paris France], and the month of [2023-13-nowhere] is [13]. *)
Theorem formatTripName_month :
  (forall dirName month,
     nth_error (split "-" dirName) 1 = Some month ->
     exists segment,
       formatTripName dirName =
       segment ++ " " ++ ToString (nth_error (split "-" dirName) 0) ++ ", "
       ++ join " " (map capitalize
                      (split " " (join " " (slice 2 (split "-" dirName))))) /\
       (forall n, parseInt month = Some n -> (1 <= n <= 12)%Z ->
          nth_error monthNames (Z.to_nat (n - 1)) = Some segment) /\
       (parseInt month = None \/
        (exists n, parseInt month = Some n /\ (n < 1 \/ 12 < n)%Z) ->
        segment = month)) /\
  monthNames =
    ["January"; "February"; "March"; "April"; "May"; "June";
     "July"; "August"; "September"; "October"; "November"; "December"] /\
  formatTripName "2023-07-paris-france" = "July 2023, Paris France" /\
  formatTripName "2023-13-nowhere" = "13" ++ " 2023, Nowhere".
Proof.
  split; [ | repeat split].
  intros dirName month Hmonth.
  exists (ToString (monthName (Some month))). split; [ | split].
  - unfold formatTripName. now rewrite Hmonth.
  - intros n Hparse Hn.
    destruct (monthName_in_range month n Hparse Hn) as (name & Hnth & ->).
    exact Hnth.
  - intros Hout. now rewrite (monthName_fallback month Hout).
Qed.

Lemma formatTripName_month_witness :
  exists segment,
    formatTripName "2024-0xC-new-york" =
    segment ++ " " ++ "2024" ++ ", " ++ "New York" /\
    nth_error monthNames 11 = Some segment.
Proof.
  destruct (proj1 formatTripName_month "2024-0xC-new-york" "0xC" eq_refl)
    as (segment & Hname & Hin & _).
  exists segment. split; [exact Hname | ].
  apply (Hin 12%Z); [reflexivity | lia].
Defined.

(** ** Replacing the marker *)

Lemma startsWith_app (p r : string) : startsWith p (p ++ r) = true.
Proof.
  induction p as [ | c p IH]; cbn; [reflexivity | ].
  now rewrite Ascii.eqb_refl.
Qed.

Lemma startsWith_inv (p s : string) :
  startsWith p s = true -> s = p ++ drop (String.length p) s.
Proof.
  revert s. induction p as [ | c p IH]; intros s Hs.
  - now destruct s.
  - destruct s as [ | d s]; [discriminate | ].
    cbn in Hs. apply andb_true_iff in Hs as [Hc Hp].
    apply Ascii.eqb_eq in Hc as ->. cbn. f_equal. now apply IH.
Qed.

Lemma append_same_length (b b' x y : string) :
  b ++ x = b' ++ y -> String.length b = String.length b' -> b = b' /\ x = y.
Proof.
  revert b'. induction b as [ | c b IH]; intros [ | c' b'] Heq Hlen;
    try discriminate.
  - auto.
  - cbn in Heq. injection Heq as -> Heq. injection Hlen as Hlen.
    destruct (IH b' Heq Hlen) as [-> ->]. auto.
Qed.

Lemma cut_Some (pat s before after : string) :
  cut pat s = Some (before, after) -> first_occurrence pat s before after.
Proof.
  revert before. induction s as [ | c s IH]; intros before Hcut.
  - cbn in Hcut. destruct (startsWith pat "") eqn:Hstart; [ | discriminate].
    injection Hcut as <- <-. split; [ | intros; cbn; lia].
    apply startsWith_inv in Hstart. exact Hstart.
  - cbn [cut] in Hcut.
    destruct (startsWith pat (String c s)) eqn:Hstart.
    + injection Hcut as <- <-. split; [ | intros; cbn; lia].
      apply startsWith_inv in Hstart. exact Hstart.
    + destruct (cut pat s) as [[b a] | ] eqn:Hrest; [ | discriminate].
      injection Hcut as <- <-.
      destruct (IH b eq_refl) as [Hs Hfirst]. split.
      * cbn. now f_equal.
      * intros [ | c' b'] a' Heq.
        -- cbn in Heq. rewrite Heq, startsWith_app in Hstart. discriminate.
        -- cbn in Heq. injection Heq as _ Heq. cbn.
           apply Hfirst in Heq. lia.
Qed.

Lemma cut_None (pat s : string) :
  cut pat s = None <-> ~ occurs pat s.
Proof.
  split.
  - induction s as [ | c s IH]; intros Hcut (before & after & Heq).
    + cbn in Hcut. destruct (startsWith pat "") eqn:Hstart; [discriminate | ].
      destruct before; [ | discriminate]. cbn in Heq.
      rewrite Heq, startsWith_app in Hstart. discriminate.
    + cbn [cut] in Hcut.
      destruct (startsWith pat (String c s)) eqn:Hstart; [discriminate | ].
      destruct (cut pat s) as [[b a] | ] eqn:Hrest; [discriminate | ].
      destruct before as [ | c' before].
      * cbn in Heq. rewrite Heq, startsWith_app in Hstart. discriminate.
      * cbn in Heq. injection Heq as _ Heq.
        apply IH; [reflexivity | ]. now exists before, after.
  - intros Habsent.
    destruct (cut pat s) as [[b a] | ] eqn:Hcut; [ | reflexivity].
    exfalso. apply Habsent. exists b, a. now apply cut_Some.
Qed.

Lemma first_occurrence_cut (pat s before after : string) :
  first_occurrence pat s before after -> cut pat s = Some (before, after).
Proof.
  intros [Heq Hfirst].
  destruct (cut pat s) as [[b a] | ] eqn:Hcut.
  - apply cut_Some in Hcut as [Heq' Hfirst'].
    assert (Hlen : String.length b = String.length before).
    { apply Nat.le_antisymm; [now apply Hfirst' with after | now apply Hfirst with a]. }
    rewrite Heq in Heq'.
    destruct (append_same_length before b _ _ Heq' (eq_sym Hlen)) as [-> Hrest].
    destruct (append_same_length pat pat _ _ Hrest eq_refl) as [_ ->].
    reflexivity.
  - apply cut_None in Hcut. exfalso. apply Hcut. now exists before, after.
Qed.

(** A template without the pattern is returned as it is. *)
Lemma replace_absent (s pat replacement : string) :
  ~ occurs pat s -> replace s pat replacement = s.
Proof.
  intros Habsent. unfold replace.
  now rewrite (proj2 (cut_None pat s) Habsent).
Qed.

(** Only the first occurrence is replaced: the text after it is kept. *)
Lemma replace_first (s pat replacement before after : string) :
  first_occurrence pat s before after ->
  replace s pat replacement =
  before ++ GetSubstitution pat before after replacement ++ after.
Proof.
  intros Hfirst. unfold replace.
  now rewrite (first_occurrence_cut _ _ _ _ Hfirst).
Qed.

(** A replacement text without a dollar is put in as it is. *)
Lemma GetSubstitution_plain (matched before after replacement : string) :
  ~ occurs "$" replacement ->
  GetSubstitution matched before after replacement = replacement.
Proof.
  induction replacement as [ | c r IH]; intros Hplain; [reflexivity | ].
  cbn [GetSubstitution].
  destruct (Ascii.eqb_spec c "$") as [-> | Hc].
  - exfalso. apply Hplain. now exists "", r.
  - f_equal. apply IH. intros (b & a & ->).
    apply Hplain. now exists (String c b), a.
Qed.

(** ** The loops *)

Lemma forEach_push {A B : Type} (f : A -> B) (body : list B -> A -> Exc (list B))
    (a : list A) (acc : list B) :
  (forall acc x, body acc x = inr (push acc (f x))) ->
  forEach a body acc = inr (acc ++ map f a)%list.
Proof.
  intros Hbody. revert acc.
  induction a as [ | x a IH]; intros acc; cbn.
  - now rewrite app_nil_r.
  - rewrite Hbody, IH. unfold push. now rewrite <- app_assoc.
Qed.

Lemma forEach_append {A B : Type} (f : A -> list B)
    (body : list B -> A -> Exc (list B)) (a : list A) (acc : list B) :
  (forall acc x, body acc x = inr (acc ++ f x)%list) ->
  forEach a body acc = inr (acc ++ flat_map f a)%list.
Proof.
  intros Hbody. revert acc.
  induction a as [ | x a IH]; intros acc; cbn.
  - now rewrite app_nil_r.
  - rewrite Hbody, IH. now rewrite <- app_assoc.
Qed.

Lemma getImageMetadata_metadataOf exifr rt imagePath :
  getImageMetadata exifr rt imagePath = inr (metadataOf exifr rt imagePath).
Proof.
  unfold metadataOf.
  destruct (getImageMetadata_returns exifr rt imagePath) as [metadata ->].
  reflexivity.
Qed.

Lemma generateTripSection_eq exifr rt tripDir tripName images :
  generateTripSection exifr rt tripDir tripName images =
  inr (tripSection tripDir tripName images
         (map (renderedImage exifr rt tripDir tripName) images)).
Proof.
  unfold generateTripSection.
  rewrite (forEach_push (renderedImage exifr rt tripDir tripName)).
  - reflexivity.
  - intros acc imageName. cbv beta.
    now rewrite getImageMetadata_metadataOf.
Qed.

Lemma generateTravelPage_eq fs exifr rt trips :
  generateTravelPage fs exifr rt trips =
  match readFileSync fs TEMPLATE_FILE with
  | inr template =>
      inr (Some (replace template MARKER
                   (pageContent trips (map (renderedSection exifr rt) trips))))
  | inl _ => inr None
  end.
Proof.
  unfold generateTravelPage.
  rewrite (forEach_push (renderedSection exifr rt)).
  - cbn. now destruct (readFileSync fs TEMPLATE_FILE).
  - intros acc trip. cbv beta. now rewrite generateTripSection_eq.
Qed.

(** The section of a trip carries the name of its directory as its id. *)
Lemma renderedSection_id exifr rt trip :
  exists rest,
    renderedSection exifr rt trip =
    html "
    <section class='trip-section' id='" ++ dir trip ++ rest.
Proof.
  unfold renderedSection, tripSection. eexists. reflexivity.
Qed.

(** ** The location of a photo and its line in the page *)

(** C2, as the specification states it, fails: a photo taken on the
    equator has both coordinates, the latitude being zero, and gets no
    location. *)
Lemma location_by_presence_counterexample :
  exists metadata,
    getImageMetadata (exifr_const (inr (Some onEquator))) rt_sample "a.jpg"
    = inr metadata /\
    both_coordinates_present onEquator /\
    location metadata = None /\
    ~ (location metadata <> None <-> both_coordinates_present onEquator).
Proof.
  exists (readMetadata rt_sample onEquator).
  assert (Hboth : both_coordinates_present onEquator)
    by (split; discriminate).
  repeat split; try discriminate.
  intros [_ Hpresent]. now apply (Hpresent Hboth).
Qed.

Lemma append_assoc (a b c : string) : (a ++ b) ++ c = a ++ b ++ c.
Proof.
  induction a as [ | x a IH]; cbn; [reflexivity | now rewrite IH].
Qed.

Lemma slot_here (post : string) : slot (fun info => info ++ post).
Proof.
  now exists "", post.
Qed.

Lemma slot_later (a : string) (f : string -> string) :
  slot f -> slot (fun info => a ++ f info).
Proof.
  intros (pre & post & Hf). exists (a ++ pre), post.
  intros info. now rewrite Hf, append_assoc.
Qed.

Lemma imageElement_location_slot tripDir tripName imageName metadata description :
  slot (fun info =>
          imageElement tripDir tripName imageName metadata info description).
Proof.
  unfold imageElement.
  do 13 apply slot_later. apply slot_here.
Qed.

Lemma generateTripSection_one exifr rt tripDir tripName imageName exifData :
  parse exifr (path_join [TRAVEL_DIR; tripDir; imageName]) = inr (Some exifData) ->
  let metadata := readMetadata rt exifData in
  generateTripSection exifr rt tripDir tripName [imageName] =
  inr (tripSection tripDir tripName [imageName]
         [imageElement tripDir tripName imageName metadata
            (locationInfo rt metadata) (descriptionInfo metadata)]).
Proof.
  intros Hparse metadata.
  rewrite generateTripSection_eq. cbn [map].
  unfold renderedImage, metadataOf.
  now rewrite (getImageMetadata_decoded _ rt _ _ Hparse).
Qed.

(** C2, amended. The location is there exactly when the latitude and the
    longitude of the decoder are both there and neither of them is zero or
    NaN: a coordinate that is zero or NaN counts as missing.  A location
    that is there holds both coordinates of the decoder.  The text put in
    the slot of the image block kept for the location is the line with the
    link to the map, the latitude and the longitude in its address, when
    the location is there, and the empty text when it is not. *)
Theorem location_all_or_nothing exifr rt tripDir tripName imageName exifData :
  parse exifr (path_join [TRAVEL_DIR; tripDir; imageName]) = inr (Some exifData) ->
  exists metadata,
    getImageMetadata exifr rt (path_join [TRAVEL_DIR; tripDir; imageName])
    = inr metadata /\
    (location metadata <> None <->
     exists la lo,
       latitude exifData = Some la /\ longitude exifData = Some lo /\
       is_zero la = false /\ is_nan la = false /\
       is_zero lo = false /\ is_nan lo = false) /\
    (latitude exifData = None \/ longitude exifData = None ->
     location metadata = None) /\
    (forall la lo,
       latitude exifData = Some la -> longitude exifData = Some lo ->
       is_zero la = false -> is_nan la = false ->
       is_zero lo = false -> is_nan lo = false ->
       location metadata = Some {| lat := la; lng := lo |}) /\
    (forall l, location metadata = Some l ->
       latitude exifData = Some (lat l) /\ longitude exifData = Some (lng l)) /\
    (forall l, location metadata = Some l ->
       locationInfo rt metadata =
       html "<p class='location'>📍 <a href='https://maps.google.com/?q="
       ++ Number_toString rt (lat l) ++ "," ++ Number_toString rt (lng l)
       ++ html "' target='_blank'>View on Map</a></p>") /\
    (location metadata = None -> locationInfo rt metadata = "") /\
    generateTripSection exifr rt tripDir tripName [imageName] =
    inr (tripSection tripDir tripName [imageName]
           [imageElement tripDir tripName imageName metadata
              (locationInfo rt metadata) (descriptionInfo metadata)]) /\
    slot (fun info =>
            imageElement tripDir tripName imageName metadata
              info (descriptionInfo metadata)).
Proof.
  intros Hparse. exists (readMetadata rt exifData).
  split; [now apply getImageMetadata_decoded | ].
  split; [ | split; [ | split; [ | split; [ | split; [ | split; [ | split]]]]]].
  - rewrite location_readMetadata. split.
    + destruct (truthy (latitude exifData)) as [la | ] eqn:Hla; [ | congruence].
      destruct (truthy (longitude exifData)) as [lo | ] eqn:Hlo; [ | congruence].
      intros _. exists la, lo.
      apply truthy_Some in Hla as [Hla Tla]. apply truthy_Some in Hlo as [Hlo Tlo].
      apply ToBoolean_number in Tla as [Zla Nla].
      apply ToBoolean_number in Tlo as [Zlo Nlo].
      repeat split; assumption.
    + intros (la & lo & Hla & Hlo & Zla & Nla & Zlo & Nlo).
      assert (Tla : truthy (latitude exifData) = Some la)
        by (apply truthy_Some; split; [ | apply ToBoolean_number]; auto).
      assert (Tlo : truthy (longitude exifData) = Some lo)
        by (apply truthy_Some; split; [ | apply ToBoolean_number]; auto).
      rewrite Tla, Tlo. discriminate.
  - rewrite location_readMetadata. intros [-> | ->]; cbn.
    + reflexivity.
    + now destruct (truthy (latitude exifData)).
  - intros la lo Hla Hlo Hz Hn Hz' Hn'. rewrite location_readMetadata.
    assert (Tla : truthy (latitude exifData) = Some la)
      by (apply truthy_Some; split; [ | apply ToBoolean_number]; auto).
    assert (Tlo : truthy (longitude exifData) = Some lo)
      by (apply truthy_Some; split; [ | apply ToBoolean_number]; auto).
    now rewrite Tla, Tlo.
  - intros l. rewrite location_readMetadata.
    destruct (truthy (latitude exifData)) as [la | ] eqn:Hla; [ | discriminate].
    destruct (truthy (longitude exifData)) as [lo | ] eqn:Hlo; [ | discriminate].
    intros [= <-]. cbn.
    apply truthy_Some in Hla as [-> _]. apply truthy_Some in Hlo as [-> _].
    now split.
  - intros l Hl. unfold locationInfo. now rewrite Hl.
  - intros Hl. unfold locationInfo. now rewrite Hl.
  - now apply generateTripSection_one.
  - apply imageElement_location_slot.
Qed.

Lemma location_all_or_nothing_witness :
  exists metadata,
    getImageMetadata (exifr_const (inr (Some fullTags))) rt_sample
      (path_join [TRAVEL_DIR; "2023-07-paris-france"; "a.jpg"])
    = inr metadata /\
    location metadata = Some {| lat := 77.5; lng := 77.5 |}.
Proof.
  destruct (location_all_or_nothing (exifr_const (inr (Some fullTags)))
              rt_sample "2023-07-paris-france" "July 2023, Paris France"
              "a.jpg" fullTags eq_refl)
    as (metadata & Hget & _ & _ & Hboth & _).
  exists metadata. split; [exact Hget | ].
  apply Hboth; reflexivity.
Defined.

(** C5. With no trip, and a template that can be read, the page is the
    template in which the text put in place of the marker is
    [<div class="no-trips"><h2>No trips found</h2></div>], a text in which
    no section of a trip starts. *)
Theorem no_trips_placeholder fs exifr rt template :
  readFileSync fs TEMPLATE_FILE = inr template ->
  generateTravelPage fs exifr rt [] = inr (Some (replace template MARKER NO_TRIPS)) /\
  (forall before after,
     first_occurrence MARKER template before after ->
     replace template MARKER NO_TRIPS = before ++ NO_TRIPS ++ after) /\
  NO_TRIPS = html "<div class='no-trips'><h2>No trips found</h2></div>" /\
  ~ occurs "<section" NO_TRIPS.
Proof.
  intros Hread. repeat split.
  - rewrite generateTravelPage_eq, Hread. reflexivity.
  - intros before after Hfirst.
    rewrite (replace_first _ _ NO_TRIPS _ _ Hfirst). reflexivity.
  - apply cut_None. reflexivity.
Qed.

Lemma no_trips_placeholder_witness :
  generateTravelPage fs_sample (exifr_const (inr None)) rt_sample []
  = inr (Some (html "<main><div class='no-trips'><h2>No trips found</h2></div></main>")).
Proof.
  apply (no_trips_placeholder fs_sample (exifr_const (inr None)) rt_sample
           template_sample).
  reflexivity.
Defined.

(** C9. A template in which the marker does not occur, once read, is
    returned as it is, whatever the trips. *)
Theorem template_without_marker fs exifr rt trips template :
  readFileSync fs TEMPLATE_FILE = inr template ->
  ~ occurs MARKER template ->
  generateTravelPage fs exifr rt trips = inr (Some template).
Proof.
  intros Hread Habsent.
  rewrite generateTravelPage_eq, Hread.
  now rewrite replace_absent.
Qed.

Lemma template_without_marker_witness :
  generateTravelPage (fs_with "<main></main>" root_sample listing_sample)
    (exifr_const (inr None)) rt_sample [trip_sample]
  = inr (Some "<main></main>").
Proof.
  apply (template_without_marker
           (fs_with "<main></main>" root_sample listing_sample)
           (exifr_const (inr None)) rt_sample [trip_sample] "<main></main>").
  - reflexivity.
  - apply cut_None. reflexivity.
Defined.

(** What is put in place of the first occurrence of the marker, and what
    is kept. *)
Lemma generateTravelPage_first_occurrence fs exifr rt trips template before after :
  readFileSync fs TEMPLATE_FILE = inr template ->
  first_occurrence MARKER template before after ->
  let content := pageContent trips (map (renderedSection exifr rt) trips) in
  generateTravelPage fs exifr rt trips =
  inr (Some (before ++ GetSubstitution MARKER before after content ++ after)) /\
  (~ occurs "$" content ->
   generateTravelPage fs exifr rt trips = inr (Some (before ++ content ++ after))).
Proof.
  intros Hread Hfirst content.
  assert (Hpage : generateTravelPage fs exifr rt trips =
                  inr (Some (before ++ GetSubstitution MARKER before after content
                             ++ after))).
  { rewrite generateTravelPage_eq, Hread.
    now rewrite (replace_first _ _ _ _ _ Hfirst). }
  split; [exact Hpage | ].
  intros Hplain. rewrite Hpage. now rewrite GetSubstitution_plain.
Qed.

Lemma cut_occurs (pat s before after : string) :
  cut pat s = Some (before, after) -> occurs pat s.
Proof.
  intros Hcut. exists before, after. now apply cut_Some.
Qed.

(** C10, on a template with the marker twice and a photo whose description
    is [Cheap eats $$]: the section of the trip holds the description as
    it is, the page does not; what stands in place of the first marker is
    not the section.  The second marker is kept. *)
Theorem dollars_in_content_are_rewritten :
  let fs := fs_with template_twice root_sample listing_sample in
  let exifr := exifr_const (inr (Some dollarTags)) in
  exists section page,
    generateTripSection exifr rt_sample
      (dir trip_sample) (name trip_sample) (images trip_sample) = inr section /\
    generateTravelPage fs exifr rt_sample [trip_sample] = inr (Some page) /\
    first_occurrence MARKER template_twice "<main>" ("</main>" ++ MARKER) /\
    page <> "<main>" ++ section ++ "</main>" ++ MARKER /\
    occurs "Cheap eats $$" section /\
    ~ occurs "Cheap eats $$" page /\
    occurs ("Cheap eats $</p>" ) page.
Proof.
  intros fs exifr.
  eexists. eexists.
  split; [reflexivity | ].
  split; [reflexivity | ].
  split; [apply cut_Some; reflexivity | ].
  split; [ | split; [ | split]].
  - apply String.eqb_neq. vm_compute. reflexivity.
  - eapply cut_occurs. vm_compute. reflexivity.
  - apply cut_None. vm_compute. reflexivity.
  - eapply cut_occurs. vm_compute. reflexivity.
Qed.

(** ** Collecting the trips *)

Lemma insert_sorted_perm (x : string) (a : list string) :
  Permutation (insert_sorted x a) (x :: a).
Proof.
  induction a as [ | y a IH]; cbn.
  - reflexivity.
  - destruct (before x y).
    + reflexivity.
    + rewrite IH. apply perm_swap.
Qed.

Lemma sort_perm (a : list string) : Permutation (sort a) a.
Proof.
  induction a as [ | x a IH]; cbn.
  - reflexivity.
  - rewrite insert_sorted_perm. now apply perm_skip.
Qed.

Lemma sort_In (a : list string) (x : string) : In x (sort a) <-> In x a.
Proof.
  split; apply Permutation_in; [ | symmetry]; apply sort_perm.
Qed.

Lemma getImageFiles_eq fs dirPath :
  getImageFiles fs dirPath = inr (imagesOf fs dirPath).
Proof.
  unfold getImageFiles, imagesOf. cbn.
  now destruct (readdirSync fs dirPath).
Qed.

Lemma collectTrip_eq fs trips tripDir :
  collectTrip fs trips tripDir = inr (trips ++ tripsOfDir fs tripDir)%list.
Proof.
  unfold collectTrip, tripsOfDir. rewrite getImageFiles_eq.
  generalize (imagesOf fs (path_join [TRAVEL_DIR; tripDir])).
  intros [ | file rest]; cbn.
  - now rewrite app_nil_r.
  - reflexivity.
Qed.

Lemma collectTrips_eq fs tripDirs :
  forEach tripDirs (collectTrip fs) [] = inr (flat_map (tripsOfDir fs) tripDirs).
Proof.
  rewrite (forEach_append (tripsOfDir fs)); [reflexivity | ].
  intros acc tripDir. apply collectTrip_eq.
Qed.

(** The directories with an image are those [getImageFiles] answers with
    an array that is not empty. *)
Lemma imagesOf_hasImages fs tripDir :
  imagesOf fs (path_join [TRAVEL_DIR; tripDir]) <> [] <-> hasImages fs tripDir.
Proof.
  unfold imagesOf, hasImages.
  destruct (readdirSync fs (path_join [TRAVEL_DIR; tripDir])) as [e | files].
  - split; [congruence | intros (? & ? & [=] & _)].
  - split.
    + intros Hne.
      destruct (sort (filter isImageFile files)) as [ | file rest] eqn:Hsort;
        [congruence | ].
      assert (Hin : In file (filter isImageFile files)).
      { apply sort_In. rewrite Hsort. now left. }
      apply filter_In in Hin as [Hin Hext].
      now exists files, file.
    + intros (files' & file & [= <-] & Hin & Hext) Hempty.
      assert (Hin' : In file (sort (filter isImageFile files))).
      { apply sort_In, filter_In. auto. }
      now rewrite Hempty in Hin'.
Qed.

Lemma tripsOfDir_In fs tripDir trip :
  In trip (tripsOfDir fs tripDir) <->
  trip = {| dir := tripDir; name := formatTripName tripDir;
            images := imagesOf fs (path_join [TRAVEL_DIR; tripDir]) |} /\
  imagesOf fs (path_join [TRAVEL_DIR; tripDir]) <> [].
Proof.
  unfold tripsOfDir.
  destruct (imagesOf fs (path_join [TRAVEL_DIR; tripDir])) as [ | file rest];
    cbn.
  - intuition congruence.
  - split.
    + intros [<- | []]. split; [reflexivity | discriminate].
    + intros [-> _]. now left.
Qed.

(** The trips collected from a list of directories. *)
Lemma collected_trips fs tripDirs trip :
  In trip (flat_map (tripsOfDir fs) tripDirs) <->
  In (dir trip) tripDirs /\ hasImages fs (dir trip) /\
  name trip = formatTripName (dir trip) /\
  images trip = imagesOf fs (path_join [TRAVEL_DIR; dir trip]).
Proof.
  rewrite in_flat_map. split.
  - intros (tripDir & Hin & Htrip).
    apply tripsOfDir_In in Htrip as [-> Hne]. cbn.
    repeat split; [exact Hin | now apply imagesOf_hasImages].
  - intros (Hin & Himages & Hname & Hfiles).
    exists (dir trip). split; [exact Hin | ].
    apply tripsOfDir_In. split.
    + destruct trip as [d n i]. cbn in *. now subst.
    + now apply imagesOf_hasImages.
Qed.





(** A run of [main]: of the two directories, the one with photos has a
    section, in which the photos come sorted. *)
Example main_sample :
  exists page,
    main fs_sample (exifr_const (inr None)) rt_sample = inr (Some page) /\
    occurs (html "<section class='trip-section' id='2023-07-paris-france'>") page /\
    occurs (html "<span class='trip-count'>2 photos</span>") page /\
    occurs (html "alt='July 2023, Paris France - a.jpg'") page /\
    ~ occurs "2022-01-empty" page /\
    ~ occurs MARKER page.
Proof.
  eexists. split; [vm_compute; reflexivity | ].
  repeat split;
    try (apply cut_None; vm_compute; reflexivity);
    (eapply cut_occurs; vm_compute; reflexivity).
Qed.

(** * Further properties of the script *)

(** ** The date of a photo *)

Lemma ToBoolean_Timestamp (t : Timestamp) :
  ToBoolean t = true <-> t <> DateText "".
Proof.
  destruct t as [time | [ | c text]]; cbn; split; intros; congruence.
Qed.

Lemma truthy_Timestamp_None (x : option Timestamp) :
  x = None \/ x = Some (DateText "") -> truthy x = None.
Proof.
  intros [-> | ->]; reflexivity.
Qed.

(** X1. The date of a photo is the formatted original time stamp when the
    decoder gives one, other than an empty text; else the formatted
    fallback time stamp when the decoder gives one, other than an empty
    text; else [Unknown date].  The fallback time stamp is not looked at
    when the original one counts. *)
Theorem date_by_precedence exifr rt imagePath exifData :
  parse exifr imagePath = inr (Some exifData) ->
  exists metadata,
    getImageMetadata exifr rt imagePath = inr metadata /\
    (forall t,
       DateTimeOriginal exifData = Some t -> t <> DateText "" ->
       date metadata = toLocaleDateString rt t) /\
    (forall t,
       DateTimeOriginal exifData = None \/
       DateTimeOriginal exifData = Some (DateText "") ->
       DateTime exifData = Some t -> t <> DateText "" ->
       date metadata = toLocaleDateString rt t) /\
    (DateTimeOriginal exifData = None \/
     DateTimeOriginal exifData = Some (DateText "") ->
     DateTime exifData = None \/ DateTime exifData = Some (DateText "") ->
     date metadata = "Unknown date").
Proof.
  intros Hparse. exists (readMetadata rt exifData).
  split; [now apply getImageMetadata_decoded | ].
  rewrite date_readMetadata. split; [ | split].
  - intros t Ht Hne.
    assert (Hot : truthy (DateTimeOriginal exifData) = Some t)
      by (apply truthy_Some; split; [ | apply ToBoolean_Timestamp]; auto).
    now rewrite Hot.
  - intros t Ho Ht Hne.
    assert (Hdt : truthy (DateTime exifData) = Some t)
      by (apply truthy_Some; split; [ | apply ToBoolean_Timestamp]; auto).
    now rewrite (truthy_Timestamp_None _ Ho), Hdt.
  - intros Ho Hd.
    now rewrite (truthy_Timestamp_None _ Ho), (truthy_Timestamp_None _ Hd).
Qed.

Lemma date_by_precedence_witness :
  exists metadata,
    getImageMetadata (exifr_const (inr (Some dateTimeOnly))) rt_sample "a.jpg"
    = inr metadata /\
    date metadata = "Friday, July 14, 2023, 10:30 AM".
Proof.
  destruct (date_by_precedence (exifr_const (inr (Some dateTimeOnly)))
              rt_sample "a.jpg" dateTimeOnly eq_refl)
    as (metadata & Hget & _ & Hfallback & _).
  exists metadata. split; [exact Hget | ].
  apply (Hfallback (DateObject (Some 1689330600000%Z)));
    [right; reflexivity | reflexivity | discriminate].
Defined.

(** ** The line of the description *)

(** X2. In the block of a photo, the text put in the slot of the
    description is the line with the description when the record
    [getImageMetadata] returned has one, and the empty text when it has
    none.  This holds for the records [getImageMetadata] returns, whose
    description is never the empty text. *)
Theorem descriptionInfo_of_metadata exifr rt imagePath metadata :
  getImageMetadata exifr rt imagePath = inr metadata ->
  (forall text,
     description metadata = Some text ->
     descriptionInfo metadata = html "<p class='description'>📝 " ++ text ++ "</p>") /\
  (description metadata = None -> descriptionInfo metadata = "") /\
  (descriptionInfo metadata = "" -> description metadata = None).
Proof.
  intros Hget.
  assert (Hfull : forall text, description metadata = Some text -> text <> "").
  { apply getImageMetadata_inv in Hget as [-> | (exifData & _ & ->)].
    - discriminate.
    - intros text. rewrite description_readMetadata.
      destruct (truthy (ImageDescription exifData)) as [d | ] eqn:Hd.
      + intros [= <-]. now apply truthy_string_inv in Hd.
      + destruct (truthy (UserComment exifData)) as [u | ] eqn:Hu; [ | discriminate].
        intros [= <-]. now apply truthy_string_inv in Hu. }
  unfold descriptionInfo.
  destruct (description metadata) as [text | ] eqn:Hdesc.
  - assert (Htruthy : truthy (Some text) = Some text)
      by (apply truthy_string_Some; [reflexivity | now apply Hfull]).
    rewrite Htruthy. repeat split; try discriminate.
    now intros ? [= <-].
  - repeat split. discriminate.
Qed.

Lemma descriptionInfo_of_metadata_witness :
  descriptionInfo (readMetadata rt_sample fullTags)
  = html "<p class='description'>📝 Harbour</p>".
Proof.
  apply (proj1 (descriptionInfo_of_metadata (exifr_const (inr (Some fullTags)))
                  rt_sample "a.jpg" (readMetadata rt_sample fullTags) eq_refl)
           "Harbour").
  reflexivity.
Defined.

(** ** The section of a trip *)

(** X3. [generateTripSection] never throws.  The section it returns holds
    one block per image, in the order of the images, each block built from
    what [getImageMetadata] returns for that image; an image the decoder
    fails on, or finds nothing in, still has its block, with the fallback
    values and neither a location nor a description line. *)
Theorem generateTripSection_blocks exifr rt tripDir tripName images :
  exists imageElements,
    generateTripSection exifr rt tripDir tripName images =
    inr (tripSection tripDir tripName images imageElements) /\
    List.length imageElements = List.length images /\
    (forall k imageName,
       nth_error images k = Some imageName ->
       exists metadata,
         getImageMetadata exifr rt (path_join [TRAVEL_DIR; tripDir; imageName])
         = inr metadata /\
         nth_error imageElements k =
         Some (imageElement tripDir tripName imageName metadata
                 (locationInfo rt metadata) (descriptionInfo metadata))) /\
    (forall k imageName,
       nth_error images k = Some imageName ->
       (exists e, parse exifr (path_join [TRAVEL_DIR; tripDir; imageName]) = inl e)
       \/ parse exifr (path_join [TRAVEL_DIR; tripDir; imageName]) = inr None ->
       nth_error imageElements k =
       Some (imageElement tripDir tripName imageName unknownMetadata "" "")).
Proof.
  exists (map (renderedImage exifr rt tripDir tripName) images).
  split; [apply generateTripSection_eq | ].
  split; [apply length_map | ].
  split.
  - intros k imageName Hk.
    exists (metadataOf exifr rt (path_join [TRAVEL_DIR; tripDir; imageName])).
    split; [apply getImageMetadata_metadataOf | ].
    now rewrite nth_error_map, Hk.
  - intros k imageName Hk Hfail.
    rewrite nth_error_map, Hk. cbn [option_map]. f_equal.
    unfold renderedImage, metadataOf.
    destruct Hfail as [[e Hparse] | Hparse].
    + now rewrite (getImageMetadata_thrown _ rt _ _ Hparse).
    + now rewrite (getImageMetadata_no_data _ rt _ Hparse).
Qed.

Lemma generateTripSection_blocks_witness :
  exists imageElements,
    generateTripSection exifr_failing rt_sample "2023-07-paris-france"
      "July 2023, Paris France" ["a.jpg"; "b.JPG"] =
    inr (tripSection "2023-07-paris-france" "July 2023, Paris France"
           ["a.jpg"; "b.JPG"] imageElements) /\
    nth_error imageElements 1 =
    Some (imageElement "2023-07-paris-france" "July 2023, Paris France" "b.JPG"
            unknownMetadata "" "").
Proof.
  destruct (generateTripSection_blocks exifr_failing rt_sample
              "2023-07-paris-france" "July 2023, Paris France" ["a.jpg"; "b.JPG"])
    as (imageElements & Hrun & _ & _ & Hfail).
  exists imageElements. split; [exact Hrun | ].
  apply (Hfail 1 "b.JPG"); [reflexivity | ].
  left. exists "Unknown file format". reflexivity.
Defined.

(** ** The page *)

(** X4. [generateTravelPage] never throws, whatever the decoder does.  It
    returns [null] exactly when reading the template throws.  Otherwise it
    returns what [replace] makes of the template, the marker and the
    content, the content being the sections of the trips put end to end,
    one per trip in the order of the trips, or the placeholder when there
    is no trip. *)
Theorem generateTravelPage_outcomes fs exifr rt trips :
  (exists result, generateTravelPage fs exifr rt trips = inr result) /\
  (generateTravelPage fs exifr rt trips = inr None <->
   exists e, readFileSync fs TEMPLATE_FILE = inl e) /\
  (forall template,
     readFileSync fs TEMPLATE_FILE = inr template ->
     generateTravelPage fs exifr rt trips =
     inr (Some (replace template MARKER
                  match trips with
                  | [] => NO_TRIPS
                  | _ :: _ => join "" (map (renderedSection exifr rt) trips)
                  end))).
Proof.
  rewrite generateTravelPage_eq.
  destruct (readFileSync fs TEMPLATE_FILE) as [e | template].
  - split; [now exists None | ]. split; [ | discriminate].
    split; [now exists e | reflexivity].
  - split; [eexists; reflexivity | ]. split.
    + split; [discriminate | intros [e [=]]].
    + intros template' [= <-]. now destruct trips.
Qed.

Lemma generateTravelPage_outcomes_witness :
  generateTravelPage fs_no_template exifr_failing rt_sample [trip_sample]
  = inr None.
Proof.
  apply (proj2 (proj1 (proj2 (generateTravelPage_outcomes fs_no_template
                                exifr_failing rt_sample [trip_sample])))).
  exists "ENOENT: no such file or directory". reflexivity.
Defined.

(** X5. When the template holds the marker, the page keeps the text before
    the first marker and the text after it as they are, later markers
    included; between them stands the content, as it is when it holds no
    dollar sign. *)
Theorem page_around_first_marker fs exifr rt trips template before after :
  readFileSync fs TEMPLATE_FILE = inr template ->
  first_occurrence MARKER template before after ->
  let content := pageContent trips (map (renderedSection exifr rt) trips) in
  (exists inserted,
     generateTravelPage fs exifr rt trips = inr (Some (before ++ inserted ++ after))) /\
  (~ occurs "$" content ->
   generateTravelPage fs exifr rt trips = inr (Some (before ++ content ++ after))).
Proof.
  intros Hread Hfirst content.
  destruct (generateTravelPage_first_occurrence fs exifr rt trips template
              before after Hread Hfirst) as [Hpage Hplain].
  split; [ | exact Hplain].
  now exists (GetSubstitution MARKER before after content).
Qed.

Lemma page_around_first_marker_witness :
  generateTravelPage (fs_with template_twice root_sample listing_sample)
    exifr_failing rt_sample []
  = inr (Some ("<main>" ++ NO_TRIPS ++ "</main>" ++ MARKER)).
Proof.
  apply (page_around_first_marker
           (fs_with template_twice root_sample listing_sample)
           exifr_failing rt_sample [] template_twice
           "<main>" ("</main>" ++ MARKER)).
  - reflexivity.
  - apply cut_Some. reflexivity.
  - apply cut_None. reflexivity.
Defined.

(** ** The outcomes of [main] *)

(** The content put in the page starts with a character other than a
    dollar. *)
Lemma pageContent_head exifr rt trips :
  exists c rest,
    pageContent trips (map (renderedSection exifr rt) trips) = String c rest /\
    c <> "$"%char.
Proof.
  destruct trips as [ | trip trips].
  - eexists. eexists. split; [reflexivity | discriminate].
  - unfold pageContent. cbn [List.length Nat.ltb Nat.leb map].
    destruct (renderedSection_id exifr rt trip) as [rest Hsection].
    cbn [join]. rewrite Hsection.
    destruct (map (renderedSection exifr rt) trips);
      (eexists; eexists; split; [reflexivity | discriminate]).
Qed.

Lemma append_empty (a b : string) : a ++ b = "" -> a = "" /\ b = "".
Proof.
  destruct a; [auto | discriminate].
Qed.

(** The page is empty only for the empty template. *)
Lemma pageOf_empty fs exifr rt dirents template :
  pageOf fs exifr rt dirents template = "" <-> template = "".
Proof.
  unfold pageOf, replace.
  destruct (pageContent_head exifr rt (flat_map (tripsOfDir fs) (tripDirsOf dirents)))
    as (c & rest & -> & Hc).
  destruct (cut MARKER template) as [[before after] | ] eqn:Hcut.
  - apply cut_Some in Hcut as [-> _]. split.
    + intros Hempty. apply append_empty in Hempty as [_ Hempty].
      apply append_empty in Hempty as [Hempty _].
      cbn [GetSubstitution] in Hempty.
      destruct (Ascii.eqb_spec c "$"); [contradiction | discriminate].
    + intros Hempty. apply append_empty in Hempty as [_ Hempty]. discriminate.
  - reflexivity.
Qed.

(** [main], step by step. *)
Lemma main_eq fs exifr rt :
  main fs exifr rt =
  if negb (existsSync fs TRAVEL_DIR) then inr None
  else if negb (existsSync fs TEMPLATE_FILE) then inr None
  else match readdirSync_withFileTypes fs TRAVEL_DIR with
       | inl e => inl e
       | inr dirents =>
           match readFileSync fs TEMPLATE_FILE with
           | inl _ => inr None
           | inr template =>
               let page := pageOf fs exifr rt dirents template in
               match page with
               | EmptyString => inr None
               | String _ _ =>
                   match writeFileSync fs "travel.html" page with
                   | inl e => inl e
                   | inr _ => inr (Some page)
                   end
               end
           end
       end.
Proof.
  unfold main.
  destruct (existsSync fs TRAVEL_DIR); cbn [negb]; [ | reflexivity].
  destruct (existsSync fs TEMPLATE_FILE); cbn [negb]; [ | reflexivity].
  destruct (readdirSync_withFileTypes fs TRAVEL_DIR) as [e | dirents];
    [reflexivity | ].
  cbn [bind Monad_either]. rewrite collectTrips_eq, generateTravelPage_eq.
  destruct (readFileSync fs TEMPLATE_FILE) as [e | template]; [reflexivity | ].
  fold (pageOf fs exifr rt dirents template). cbv zeta.
  destruct (pageOf fs exifr rt dirents template) as [ | c page]; [reflexivity | ].
  cbn. now destruct (writeFileSync fs "travel.html" (String c page)).
Qed.

(** X6. [main] writes a page exactly when the root and the template file
    exist, the root can be listed, the template can be read and is not
    empty, and the write succeeds; the page is then the template with the
    marker replaced, never the empty text, and it is written to
    [travel.html]. *)
Theorem main_writes_iff fs exifr rt page :
  main fs exifr rt = inr (Some page) <->
  existsSync fs TRAVEL_DIR = true /\
  existsSync fs TEMPLATE_FILE = true /\
  exists dirents template,
    readdirSync_withFileTypes fs TRAVEL_DIR = inr dirents /\
    readFileSync fs TEMPLATE_FILE = inr template /\
    template <> "" /\
    page = pageOf fs exifr rt dirents template /\
    page <> "" /\
    exists done, writeFileSync fs "travel.html" page = inr done.
Proof.
  rewrite main_eq. split.
  - destruct (existsSync fs TRAVEL_DIR); cbn [negb]; [ | discriminate].
    destruct (existsSync fs TEMPLATE_FILE); cbn [negb]; [ | discriminate].
    destruct (readdirSync_withFileTypes fs TRAVEL_DIR) as [e | dirents];
      [discriminate | ].
    destruct (readFileSync fs TEMPLATE_FILE) as [e | template]; [discriminate | ].
    cbv zeta.
    destruct (pageOf fs exifr rt dirents template) as [ | c text] eqn:Hpage;
      [discriminate | ].
    destruct (writeFileSync fs "travel.html" (String c text)) as [e | done] eqn:Hwrite;
      [discriminate | ].
    intros [= <-]. repeat split. exists dirents, template.
    repeat split; try congruence.
    + intros ->. now rewrite (proj2 (pageOf_empty fs exifr rt dirents "")) in Hpage.
    + now exists done.
  - intros (-> & -> & dirents & template & -> & -> & _ & -> & Hne & done & Hwrite).
    cbn [negb]. cbv zeta.
    destruct (pageOf fs exifr rt dirents template) as [ | c text];
      [congruence | ].
    now rewrite Hwrite.
Qed.

Lemma main_writes_iff_witness :
  exists page, main fs_sample exifr_failing rt_sample = inr (Some page).
Proof.
  exists (pageOf fs_sample exifr_failing rt_sample root_sample template_sample).
  apply (proj2 (main_writes_iff fs_sample exifr_failing rt_sample _)).
  split; [reflexivity | split; [reflexivity | ]].
  exists root_sample, template_sample.
  split; [reflexivity | split; [reflexivity | split; [discriminate | ]]].
  split; [reflexivity | split].
  - apply String.eqb_neq. vm_compute. reflexivity.
  - exists tt. reflexivity.
Defined.

(** X7. [main] throws only when the root, which exists, cannot be listed,
    or when writing the page fails; it then throws that very error.  A
    directory that cannot be listed and a photo that cannot be decoded
    never make it throw. *)
Theorem main_throws_iff fs exifr rt e :
  main fs exifr rt = inl e <->
  existsSync fs TRAVEL_DIR = true /\
  existsSync fs TEMPLATE_FILE = true /\
  (readdirSync_withFileTypes fs TRAVEL_DIR = inl e \/
   exists dirents template,
     readdirSync_withFileTypes fs TRAVEL_DIR = inr dirents /\
     readFileSync fs TEMPLATE_FILE = inr template /\
     template <> "" /\
     writeFileSync fs "travel.html" (pageOf fs exifr rt dirents template) = inl e).
Proof.
  rewrite main_eq. split.
  - destruct (existsSync fs TRAVEL_DIR); cbn [negb]; [ | discriminate].
    destruct (existsSync fs TEMPLATE_FILE); cbn [negb]; [ | discriminate].
    destruct (readdirSync_withFileTypes fs TRAVEL_DIR) as [e' | dirents].
    + intros [= ->]. auto.
    + destruct (readFileSync fs TEMPLATE_FILE) as [e' | template];
        [discriminate | ].
      cbv zeta.
      destruct (pageOf fs exifr rt dirents template) as [ | c text] eqn:Hpage;
        [discriminate | ].
      destruct (writeFileSync fs "travel.html" (String c text)) as [e' | done] eqn:Hwrite;
        [ | discriminate].
      intros [= ->]. repeat split. right. exists dirents, template.
      repeat split; try congruence.
      intros ->. now rewrite (proj2 (pageOf_empty fs exifr rt dirents "")) in Hpage.
  - intros (-> & -> & [-> | (dirents & template & -> & -> & Hne & Hwrite)]);
      cbn [negb]; [reflexivity | ].
    cbv zeta.
    destruct (pageOf fs exifr rt dirents template) as [ | c text] eqn:Hpage.
    + now apply pageOf_empty in Hpage.
    + now rewrite Hwrite.
Qed.

Lemma main_throws_iff_witness :
  main fs_unlistable exifr_failing rt_sample = inl "ENOTDIR: not a directory".
Proof.
  apply (proj2 (main_throws_iff fs_unlistable exifr_failing rt_sample
                  "ENOTDIR: not a directory")).
  split; [reflexivity | split; [reflexivity | ]].
  left. reflexivity.
Defined.

(** X8. [main] ends without writing, and without throwing, exactly when
    the root or the template file does not exist, or when, the root being
    listed, the template cannot be read or is empty. *)
Theorem main_writes_nothing_iff fs exifr rt :
  main fs exifr rt = inr None <->
  existsSync fs TRAVEL_DIR = false \/
  existsSync fs TEMPLATE_FILE = false \/
  exists dirents,
    readdirSync_withFileTypes fs TRAVEL_DIR = inr dirents /\
    ((exists e, readFileSync fs TEMPLATE_FILE = inl e) \/
     readFileSync fs TEMPLATE_FILE = inr "").
Proof.
  rewrite main_eq. split.
  - destruct (existsSync fs TRAVEL_DIR); cbn [negb]; [ | auto].
    destruct (existsSync fs TEMPLATE_FILE); cbn [negb]; [ | auto].
    destruct (readdirSync_withFileTypes fs TRAVEL_DIR) as [e | dirents];
      [discriminate | ].
    intros Hmain. right. right. exists dirents. split; [reflexivity | ].
    destruct (readFileSync fs TEMPLATE_FILE) as [e | template].
    + left. now exists e.
    + right. cbv zeta in Hmain.
      destruct (pageOf fs exifr rt dirents template) as [ | c text] eqn:Hpage.
      * apply pageOf_empty in Hpage. now subst.
      * now destruct (writeFileSync fs "travel.html" (String c text)).
  - intros [-> | [Htemplate | (dirents & Hroot & Hread)]]; [reflexivity | | ].
    + rewrite Htemplate. now destruct (existsSync fs TRAVEL_DIR).
    + destruct (existsSync fs TRAVEL_DIR); cbn [negb]; [ | reflexivity].
      destruct (existsSync fs TEMPLATE_FILE); cbn [negb]; [ | reflexivity].
      rewrite Hroot. destruct Hread as [[e ->] | ->]; [reflexivity | ].
      cbv zeta.
      now rewrite (proj2 (pageOf_empty fs exifr rt dirents "") eq_refl).
Qed.

Lemma main_writes_nothing_iff_witness :
  main fs_no_template exifr_failing rt_sample = inr None.
Proof.
  apply (proj2 (main_writes_nothing_iff fs_no_template exifr_failing rt_sample)).
  right. left. reflexivity.
Defined.

(** ** The order of the images and of the trips *)

Lemma compare_units_antisym (x y : list N) :
  compare_units x y = CompOpp (compare_units y x).
Proof.
  revert y. induction x as [ | a x IH]; intros [ | b y]; cbn; try reflexivity.
  rewrite (N.compare_antisym b a).
  destruct (N.compare b a); cbn; [apply IH | reflexivity | reflexivity].
Qed.

Lemma compare_units_eq (x y : list N) : compare_units x y = Eq -> x = y.
Proof.
  revert y. induction x as [ | a x IH]; intros [ | b y]; cbn;
    try discriminate; [reflexivity | ].
  destruct (N.compare a b) eqn:Hab; try discriminate.
  apply N.compare_eq_iff in Hab as ->. intros Hxy. f_equal. now apply IH.
Qed.

Lemma compare_units_lt_trans (x y z : list N) :
  compare_units x y = Lt -> compare_units y z = Lt -> compare_units x z = Lt.
Proof.
  revert y z. induction x as [ | a x IH]; intros [ | b y] [ | c z];
    cbn; try congruence.
  destruct (N.compare a b) eqn:Hab; try discriminate;
    destruct (N.compare b c) eqn:Hbc; try discriminate.
  - apply N.compare_eq_iff in Hab as ->. apply N.compare_eq_iff in Hbc as ->.
    rewrite N.compare_refl. apply IH.
  - apply N.compare_eq_iff in Hab as ->. now rewrite Hbc.
  - apply N.compare_eq_iff in Hbc as <-. now rewrite Hab.
  - assert (Hac : (a ?= c)%N = Lt).
    { apply N.compare_lt_iff. apply N.lt_trans with b;
        now apply N.compare_lt_iff. }
    now rewrite Hac.
Qed.

Lemma ordered_trans (a b c : string) : ordered a b -> ordered b c -> ordered a c.
Proof.
  unfold ordered.
  destruct (compare_units (utf16 a) (utf16 b)) eqn:Hab; [ | | congruence];
    destruct (compare_units (utf16 b) (utf16 c)) eqn:Hbc; try congruence;
    intros _ _.
  - apply compare_units_eq in Hab. rewrite Hab, Hbc. discriminate.
  - apply compare_units_eq in Hab. rewrite Hab, Hbc. discriminate.
  - apply compare_units_eq in Hbc. rewrite <- Hbc, Hab. discriminate.
  - rewrite (compare_units_lt_trans _ _ _ Hab Hbc). discriminate.
Qed.

Lemma before_ordered (x y : string) : before x y = true -> ordered x y.
Proof.
  unfold ordered, before.
  destruct (compare_units (utf16 x) (utf16 y)); congruence.
Qed.

Lemma not_before_ordered (x y : string) : before x y = false -> ordered y x.
Proof.
  unfold ordered, before.
  rewrite (compare_units_antisym (utf16 y) (utf16 x)).
  destruct (compare_units (utf16 x) (utf16 y)); cbn; congruence.
Qed.

Lemma insert_sorted_ordered (x : string) (a : list string) :
  StronglySorted ordered a -> StronglySorted ordered (insert_sorted x a).
Proof.
  induction a as [ | y a IH]; intros Hsorted; cbn.
  - repeat constructor.
  - apply StronglySorted_inv in Hsorted as [Hrest Hy].
    destruct (before x y) eqn:Hxy.
    + constructor; [now constructor | ].
      constructor; [now apply before_ordered | ].
      apply Forall_impl with (P := ordered y); [ | exact Hy].
      intros z. apply ordered_trans. now apply before_ordered.
    + constructor; [now apply IH | ].
      apply (Permutation_Forall (Permutation_sym (insert_sorted_perm x a))).
      constructor; [now apply not_before_ordered | exact Hy].
Qed.

Lemma sort_ordered (a : list string) : StronglySorted ordered (sort a).
Proof.
  induction a as [ | x a IH]; cbn.
  - constructor.
  - now apply insert_sorted_ordered.
Qed.

Lemma StronglySorted_filter {A} (R : A -> A -> Prop) (f : A -> bool) (l : list A) :
  StronglySorted R l -> StronglySorted R (filter f l).
Proof.
  induction 1 as [ | x l Hsorted IH Hx]; cbn.
  - constructor.
  - destruct (f x); [ | exact IH].
    constructor; [exact IH | ].
    apply Forall_forall. intros y Hy. apply filter_In in Hy as [Hy _].
    revert y Hy. now apply Forall_forall.
Qed.

(** X9. [getImageFiles] never throws.  For a directory that cannot be
    listed it returns the empty array.  For one that can, it returns the
    entries whose extension, in lower case, is one of [.jpg], [.jpeg],
    [.png], [.gif], [.webp]: each of them as often as it is listed,
    nothing else, in the ascending order of their UTF-16 code units. *)
Theorem getImageFiles_sorted_images fs dirPath :
  exists images,
    getImageFiles fs dirPath = inr images /\
    StronglySorted ordered images /\
    (forall e, readdirSync fs dirPath = inl e -> images = []) /\
    (forall files,
       readdirSync fs dirPath = inr files ->
       Permutation images (filter isImageFile files) /\
       forall file,
         In file images <->
         In file files /\
         In (toLowerCase (extname file)) [".jpg"; ".jpeg"; ".png"; ".gif"; ".webp"]).
Proof.
  exists (imagesOf fs dirPath).
  split; [apply getImageFiles_eq | ].
  unfold imagesOf.
  destruct (readdirSync fs dirPath) as [e | files].
  - repeat split; try discriminate. constructor.
  - split; [apply sort_ordered | ]. split; [discriminate | ].
    intros files' [= <-]. split; [apply sort_perm | ].
    intros file. rewrite sort_In, filter_In.
    unfold isImageFile, includes. rewrite existsb_exists.
    split; intros [Hin Hext]; (split; [exact Hin | ]).
    + destruct Hext as (ext & Hext & Heq).
      apply String.eqb_eq in Heq as ->. exact Hext.
    + exists (toLowerCase (extname file)).
      split; [exact Hext | apply String.eqb_refl].
Qed.

Lemma getImageFiles_sorted_images_witness :
  exists images,
    getImageFiles fs_sample "public/travel/2023-07-paris-france" = inr images /\
    In "b.JPG" images.
Proof.
  destruct (getImageFiles_sorted_images fs_sample
              "public/travel/2023-07-paris-france")
    as (images & Hrun & _ & _ & Hlisted).
  exists images. split; [exact Hrun | ].
  apply (proj2 (Hlisted ["b.JPG"; "notes.txt"; "a.jpg"] eq_refl) "b.JPG").
  split; [now left | ].
  vm_compute. left. reflexivity.
Defined.

Lemma tripsOfDir_dir fs tripDir :
  map dir (tripsOfDir fs tripDir) =
  if holdsImages fs tripDir then [tripDir] else [].
Proof.
  unfold tripsOfDir, holdsImages.
  now destruct (0 <? List.length (imagesOf fs (path_join [TRAVEL_DIR; tripDir])))%nat.
Qed.

Lemma collected_dirs fs tripDirs :
  map dir (flat_map (tripsOfDir fs) tripDirs) = filter (holdsImages fs) tripDirs.
Proof.
  induction tripDirs as [ | tripDir tripDirs IH]; [reflexivity | ].
  cbn [flat_map filter]. rewrite map_app, IH, tripsOfDir_dir.
  now destruct (holdsImages fs tripDir).
Qed.

(** X10. The trips [main] collects are those of the directories that
    hold an image, in the ascending order of the names of these
    directories by their code units; the content [main] has put in place
    of the marker is the sections of these trips, put end to end in that
    order.  When the entries of the root that are directories have
    distinct names, no directory has two trips.  Every trip carries the
    formatted name of its directory and its images, at least one, in
    ascending order. *)
Theorem trips_in_directory_order fs dirents :
  exists trips,
    forEach (tripDirsOf dirents) (collectTrip fs) [] = inr trips /\
    map dir trips = filter (holdsImages fs) (tripDirsOf dirents) /\
    StronglySorted ordered (map dir trips) /\
    (forall exifr rt template,
       pageOf fs exifr rt dirents template =
       replace template MARKER
         match trips with
         | [] => NO_TRIPS
         | _ :: _ => join "" (map (renderedSection exifr rt) trips)
         end) /\
    (NoDup (map d_name (filter d_isDirectory dirents)) -> NoDup (map dir trips)) /\
    (forall trip, In trip trips ->
       name trip = formatTripName (dir trip) /\
       images trip <> [] /\
       StronglySorted ordered (images trip)).
Proof.
  exists (flat_map (tripsOfDir fs) (tripDirsOf dirents)).
  split; [apply collectTrips_eq | ].
  rewrite collected_dirs. split; [reflexivity | ].
  split; [ | split; [ | split]].
  - apply StronglySorted_filter. apply sort_ordered.
  - intros exifr rt template. unfold pageOf, pageContent.
    now destruct (flat_map (tripsOfDir fs) (tripDirsOf dirents)).
  - intros Hdistinct. apply NoDup_filter.
    apply (Permutation_NoDup (Permutation_sym (sort_perm _))). exact Hdistinct.
  - intros trip Hin.
    apply collected_trips in Hin as (_ & Himages & Hname & Hfiles).
    split; [exact Hname | ]. rewrite Hfiles. split.
    + now apply imagesOf_hasImages.
    + unfold imagesOf.
      destruct (readdirSync fs (path_join [TRAVEL_DIR; dir trip]));
        [constructor | apply sort_ordered].
Qed.

Lemma trips_in_directory_order_witness :
  exists trips,
    forEach (tripDirsOf root_sample) (collectTrip fs_sample) [] = inr trips /\
    NoDup (map dir trips).
Proof.
  destruct (trips_in_directory_order fs_sample root_sample)
    as (trips & Hrun & _ & _ & _ & Hdistinct & _).
  exists trips. split; [exact Hrun | ].
  apply Hdistinct. cbn.
  constructor; [intros [[=] | []] | ].
  constructor; [intros [] | constructor].
Defined.

(** ** The name of a trip, part by part *)

Lemma split_nonempty (c : ascii) (s : string) : split c s <> [].
Proof.
  destruct s as [ | x r]; cbn; [discriminate | ].
  destruct (Ascii.eqb x c); [discriminate | ].
  destruct (split c r); discriminate.
Qed.

Lemma join_cons_String (sep : string) (x : ascii) (w : string) (ws : list string) :
  join sep (String x w :: ws) = String x (join sep (w :: ws)).
Proof.
  destruct ws; reflexivity.
Qed.

Lemma join_cons_empty (sep : string) (ws : list string) :
  ws <> [] -> join sep ("" :: ws) = sep ++ join sep ws.
Proof.
  destruct ws; [congruence | reflexivity].
Qed.

(** Splitting at a character and joining with another changes the one
    into the other. *)
Lemma join_split (c d : ascii) (s : string) :
  join (String d "") (split c s) =
  mapChars (fun x => if Ascii.eqb x c then d else x) s.
Proof.
  induction s as [ | x r IH]; [reflexivity | ].
  cbn [split mapChars].
  destruct (Ascii.eqb x c).
  - rewrite join_cons_empty by apply split_nonempty. cbn. now rewrite IH.
  - destruct (split c r) as [ | w ws] eqn:Hsplit.
    + now apply split_nonempty in Hsplit.
    + now rewrite join_cons_String, IH.
Qed.

Lemma split_without (c : ascii) (s : string) :
  hasChar c s = false -> split c s = [s].
Proof.
  induction s as [ | x r IH]; [reflexivity | ].
  cbn. intros Hno. apply orb_false_iff in Hno as [Hx Hr].
  now rewrite Hx, (IH Hr).
Qed.

Lemma split_at_first (c : ascii) (a b : string) :
  hasChar c a = false -> split c (a ++ String c b) = a :: split c b.
Proof.
  induction a as [ | x a IH]; cbn.
  - intros _. now rewrite Ascii.eqb_refl.
  - intros Hno. apply orb_false_iff in Hno as [Hx Ha].
    now rewrite Hx, (IH Ha).
Qed.

(** The three parts of a directory name in the name of the trip. *)
Lemma formatTripName_parts year month rest :
  hasChar "-" year = false ->
  hasChar "-" month = false ->
  formatTripName (year ++ "-" ++ month ++ "-" ++ rest) =
  ToString (monthName (Some month)) ++ " " ++ year ++ ", "
  ++ join " " (map capitalize (split " " (mapChars dashToSpace rest))).
Proof.
  intros Hyear Hmonth. unfold formatTripName.
  change (year ++ "-" ++ month ++ "-" ++ rest)
    with (year ++ String "-" (month ++ String "-" rest)).
  rewrite (split_at_first "-" year _ Hyear), (split_at_first "-" month _ Hmonth).
  cbn [nth_error slice skipn]. now rewrite join_split.
Qed.

(** X12. A directory name without a dash has no month: the name of the
    trip is the text [undefined], a space, the directory name, a comma and
    a space.  A directory name with one dash has no location: the name of
    the trip ends with the comma and a space. *)
Theorem formatTripName_missing_parts :
  (forall dirName,
     hasChar "-" dirName = false ->
     formatTripName dirName = "undefined " ++ dirName ++ ", ") /\
  (forall year month,
     hasChar "-" year = false -> hasChar "-" month = false ->
     formatTripName (year ++ "-" ++ month) =
     ToString (monthName (Some month)) ++ " " ++ year ++ ", ").
Proof.
  split.
  - intros dirName Hno. unfold formatTripName.
    now rewrite (split_without "-" dirName Hno).
  - intros year month Hyear Hmonth. unfold formatTripName.
    change (year ++ "-" ++ month) with (year ++ String "-" month).
    rewrite (split_at_first "-" year _ Hyear), (split_without "-" month Hmonth).
    reflexivity.
Qed.

Lemma formatTripName_missing_parts_witness :
  formatTripName "weekend" = "undefined weekend, " /\
  formatTripName ("2020" ++ "-" ++ "02") = "February 2020, ".
Proof.
  split.
  - apply (proj1 formatTripName_missing_parts "weekend"). reflexivity.
  - apply (proj2 formatTripName_missing_parts "2020" "02"); reflexivity.
Defined.

Lemma toUpperCase_space : toUpperCase_char " " = " "%char.
Proof.
  reflexivity.
Qed.

Lemma capitalize_words (s : string) :
  isAscii s = true ->
  join " " (map capitalize (split " " s)) = upperAfterSpace true s /\
  join " " match split " " s with
           | [] => []
           | w :: ws => w :: map capitalize ws
           end = upperAfterSpace false s.
Proof.
  induction s as [ | c r IH]; intros Hascii; [split; reflexivity | ].
  cbn [isAscii] in Hascii. apply andb_true_iff in Hascii as [Hc128 Hr].
  destruct (IH Hr) as [IHtrue IHfalse].
  cbn [split upperAfterSpace].
  destruct (Ascii.eqb_spec c " ") as [-> | Hc].
  - cbn [map capitalize].
    assert (Hne : map capitalize (split " " r) <> []).
    { destruct (split " " r) eqn:Hsplit; [ | discriminate].
      now apply split_nonempty in Hsplit. }
    rewrite (join_cons_empty " " _ Hne), IHtrue. split; reflexivity.
  - destruct (split " " r) as [ | w ws] eqn:Hsplit.
    + now apply split_nonempty in Hsplit.
    + cbn [map capitalize]. rewrite Hc128, !join_cons_String, IHfalse.
      split; reflexivity.
Qed.

Lemma upperAfterSpace_length (start : bool) (s : string) :
  String.length (upperAfterSpace start s) = String.length s.
Proof.
  revert start. induction s as [ | c r IH]; intros start; cbn; [reflexivity | ].
  now rewrite IH.
Qed.

Lemma toLowerCase_toUpperCase_char (c : ascii) :
  toLowerCase_char (toUpperCase_char c) = toLowerCase_char c.
Proof.
  destruct c as [[ | ] [ | ] [ | ] [ | ] [ | ] [ | ] [ | ] [ | ]]; reflexivity.
Qed.

Lemma upperAfterSpace_toLowerCase (start : bool) (s : string) :
  toLowerCase (upperAfterSpace start s) = toLowerCase s.
Proof.
  revert start. induction s as [ | c r IH]; intros start; cbn; [reflexivity | ].
  rewrite IH. destruct start; [ | reflexivity].
  now rewrite toLowerCase_toUpperCase_char.
Qed.

Lemma mapChars_length (f : ascii -> ascii) (s : string) :
  String.length (mapChars f s) = String.length s.
Proof.
  induction s as [ | c r IH]; cbn; [reflexivity | now rewrite IH].
Qed.

Lemma mapChars_dashToSpace_isAscii (s : string) :
  isAscii (mapChars dashToSpace s) = isAscii s.
Proof.
  induction s as [ | c r IH]; cbn; [reflexivity | ].
  rewrite IH. unfold dashToSpace.
  now destruct (Ascii.eqb_spec c "-") as [-> | _].
Qed.

(** X11. For a directory name made of a year and a month, both without a
    dash, and a rest, with dashes between the three, the name of the trip
    is the month as [monthName] gives it, a space, the year as it stands,
    a comma and a space, and the location.  The location is made of the
    words of the rest, its dashes taken for spaces, each word capitalised
    and a space between two words.  When the rest is an ASCII text, this
    is the rest in which every dash has become a space and then, in one
    pass, the first character and every character that follows a space has
    been put in upper case: it has the length of the rest, and every other
    character is left as it is. *)
Theorem formatTripName_location year month rest :
  hasChar "-" year = false ->
  hasChar "-" month = false ->
  exists locationFormatted,
    formatTripName (year ++ "-" ++ month ++ "-" ++ rest) =
    ToString (monthName (Some month)) ++ " " ++ year ++ ", " ++ locationFormatted /\
    locationFormatted =
    join " " (map capitalize (split " " (mapChars dashToSpace rest))) /\
    (isAscii rest = true ->
     locationFormatted = upperAfterSpace true (mapChars dashToSpace rest) /\
     String.length locationFormatted = String.length rest /\
     toLowerCase locationFormatted = toLowerCase (mapChars dashToSpace rest)).
Proof.
  intros Hyear Hmonth.
  exists (join " " (map capitalize (split " " (mapChars dashToSpace rest)))).
  split; [apply (formatTripName_parts year month rest Hyear Hmonth) | ].
  split; [reflexivity | ].
  intros Hascii.
  assert (Hascii' : isAscii (mapChars dashToSpace rest) = true)
    by now rewrite mapChars_dashToSpace_isAscii.
  rewrite (proj1 (capitalize_words _ Hascii')).
  split; [reflexivity | split].
  - now rewrite upperAfterSpace_length, mapChars_length.
  - apply upperAfterSpace_toLowerCase.
Qed.

Lemma formatTripName_location_witness :
  formatTripName ("2019" ++ "-" ++ "11" ++ "-" ++ "rio-de-janeiro BR") =
  "November 2019, Rio De Janeiro BR" /\
  String.length "Rio De Janeiro BR" = String.length "rio-de-janeiro BR".
Proof.
  destruct (formatTripName_location "2019" "11" "rio-de-janeiro BR" eq_refl eq_refl)
    as (locationFormatted & Hname & _ & Hascii).
  destruct (Hascii eq_refl) as (Hpass & Hlength & _).
  rewrite Hpass in Hname, Hlength. split; [exact Hname | exact Hlength].
Defined.

(** ** The filter on the extension *)

Lemma toLowerCase_char_slash (c : ascii) :
  Ascii.eqb (toLowerCase_char c) "/" = Ascii.eqb c "/".
Proof.
  destruct c as [[ | ] [ | ] [ | ] [ | ] [ | ] [ | ] [ | ] [ | ]]; reflexivity.
Qed.

Lemma toLowerCase_char_dot (c : ascii) :
  Ascii.eqb (toLowerCase_char c) "." = Ascii.eqb c ".".
Proof.
  destruct c as [[ | ] [ | ] [ | ] [ | ] [ | ] [ | ] [ | ] [ | ]]; reflexivity.
Qed.

Lemma toLowerCase_char_idempotent (c : ascii) :
  toLowerCase_char (toLowerCase_char c) = toLowerCase_char c.
Proof.
  destruct c as [[ | ] [ | ] [ | ] [ | ] [ | ] [ | ] [ | ] [ | ]]; reflexivity.
Qed.

Lemma toLowerCase_idempotent (s : string) :
  toLowerCase (toLowerCase s) = toLowerCase s.
Proof.
  induction s as [ | c r IH]; cbn; [reflexivity | ].
  now rewrite IH, toLowerCase_char_idempotent.
Qed.

Lemma toLowerCase_length (s : string) :
  String.length (toLowerCase s) = String.length s.
Proof.
  induction s as [ | c r IH]; cbn; [reflexivity | now rewrite IH].
Qed.

Lemma toLowerCase_get (i : nat) (s : string) :
  String.get i (toLowerCase s) = option_map toLowerCase_char (String.get i s).
Proof.
  revert i. induction s as [ | c r IH]; intros [ | i]; cbn; try reflexivity.
  apply IH.
Qed.

Lemma toLowerCase_substring (n m : nat) (s : string) :
  substring n m (toLowerCase s) = toLowerCase (substring n m s).
Proof.
  revert n m. induction s as [ | c r IH]; intros [ | n] [ | m]; cbn;
    try reflexivity.
  - now rewrite IH.
  - apply IH.
  - apply IH.
Qed.

Lemma extname_scan_toLowerCase (path : string) (n : nat) (st : ExtScan) :
  extname_scan (toLowerCase path) n st = extname_scan path n st.
Proof.
  revert st. induction n as [ | i IH]; intros st; [reflexivity | ].
  cbn [extname_scan]. rewrite toLowerCase_get.
  destruct (String.get i path) as [c | ]; cbn [option_map]; [ | reflexivity].
  rewrite toLowerCase_char_slash, toLowerCase_char_dot.
  destruct (Ascii.eqb c "/"); [ | apply IH].
  destruct (matchedSlash st); cbn [negb]; [apply IH | reflexivity].
Qed.

Lemma extname_toLowerCase (path : string) :
  extname (toLowerCase path) = toLowerCase (extname path).
Proof.
  unfold extname.
  rewrite toLowerCase_length, extname_scan_toLowerCase.
  destruct (_ || _)%bool; [reflexivity | apply toLowerCase_substring].
Qed.

(** X13. Whether a file is an image depends on its name up to the case of
    letters only: two names that are the same once in lower case are both
    images or both not. *)
Theorem isImageFile_ignores_case (file file' : string) :
  toLowerCase file = toLowerCase file' ->
  isImageFile file = isImageFile file'.
Proof.
  intros Hsame. unfold isImageFile.
  now rewrite <- !extname_toLowerCase, Hsame.
Qed.

Lemma isImageFile_ignores_case_witness :
  isImageFile "IMG_0042.JPeG" = isImageFile "img_0042.jpeg".
Proof.
  apply (isImageFile_ignores_case "IMG_0042.JPeG" "img_0042.jpeg").
  reflexivity.
Defined.

Lemma get_Some_lt (i : nat) (s : string) :
  i < String.length s -> exists c, String.get i s = Some c.
Proof.
  revert i. induction s as [ | x r IH]; intros i Hi; cbn in Hi; [lia | ].
  destruct i as [ | i]; cbn; [now exists x | ].
  apply IH. lia.
Qed.

Lemma get_None_ge (i : nat) (s : string) :
  String.length s <= i -> String.get i s = None.
Proof.
  revert i. induction s as [ | x r IH]; intros i Hi; [now destruct i | ].
  cbn in Hi. destruct i as [ | i]; [lia | ]. cbn. apply IH. lia.
Qed.

Lemma hasChar_get (c : ascii) (i : nat) (s : string) :
  hasChar c s = false -> String.get i s <> Some c.
Proof.
  revert i. induction s as [ | x r IH]; intros i Hno; [now destruct i | ].
  cbn in Hno. apply orb_false_iff in Hno as [Hx Hr].
  destruct i as [ | i]; cbn.
  - intros [= ->]. now rewrite Ascii.eqb_refl in Hx.
  - now apply IH.
Qed.

Ltac scanned_fields :=
  unfold scanned; cbn [startDot startPart end_ matchedSlash preDotState].

(** The loop of [path.extname] on a path without a slash. *)
Lemma extname_scan_scanned (path : string) :
  hasChar "/" path = false ->
  forall n st,
    n <= String.length path -> scanned path n st ->
    scanned path 0 (extname_scan path n st).
Proof.
  intros Hno. induction n as [ | i IH]; intros st Hle Hinv; [exact Hinv | ].
  cbn [extname_scan].
  destruct (get_Some_lt i path) as [c Hc]; [lia | ]. rewrite Hc.
  assert (Hslash : Ascii.eqb c "/" = false).
  { apply Ascii.eqb_neq. intros ->. now apply (hasChar_get "/" i path Hno). }
  rewrite Hslash. apply IH; [lia | ].
  assert (Hafter : forall j, String.length path <= j ->
                             String.get j path <> Some "."%char).
  { intros j Hj. now rewrite (get_None_ge j path Hj). }
  destruct Hinv as [Hpart [[Hn ->] | (Hlt & Hend & Hdots)]].
  - (* first turn of the loop *)
    cbn. destruct (Ascii.eqb_spec c ".") as [-> | Hdot]; cbn; scanned_fields.
    + split; [reflexivity | ]. right. split; [lia | ]. split; [lia | ].
      right. exists i. repeat split; try lia; try assumption.
      intros j Hj. apply Hafter. lia.
    + split; [reflexivity | ]. right. split; [lia | ]. split; [lia | ].
      left. repeat split. intros j Hj.
      destruct (Nat.eq_dec j i) as [-> | Hji]; [congruence | ].
      apply Hafter. lia.
  - (* a later turn *)
    assert (Hend' : (end_ st =? -1)%Z = false)
      by (apply Z.eqb_neq; lia).
    rewrite Hend'.
    destruct Hdots as [(Hsd & Hpds & Hnone) | (d & Hsd & Hd & Hget & Hlater & Hpds)].
    + rewrite Hsd. cbn [Z.eqb negb].
      destruct (Ascii.eqb_spec c ".") as [-> | Hdot]; cbn; scanned_fields.
      * split; [exact Hpart | ]. right. split; [lia | ].
        split; [exact Hend | ]. right. exists i.
        repeat split; try lia; try assumption.
      * split; [exact Hpart | ]. right. split; [lia | ].
        split; [exact Hend | ]. left. repeat split; try assumption.
        intros j Hj.
        destruct (Nat.eq_dec j i) as [-> | Hji]; [congruence | ].
        apply Hnone. lia.
    + assert (Hsd' : (startDot st =? -1)%Z = false)
        by (apply Z.eqb_neq; lia).
      rewrite Hsd'. cbn [negb].
      destruct (Ascii.eqb c ".").
      * destruct (Z.eqb_spec (preDotState st) 1) as [Hone | Hone]; cbn;
          scanned_fields.
        -- split; [exact Hpart | ]. right. split; [lia | ].
           split; [exact Hend | ]. right. exists d.
           repeat split; try lia; try assumption.
        -- split; [exact Hpart | ]. right. split; [lia | ].
           split; [exact Hend | ]. right. exists d.
           repeat split; try lia; try assumption.
      * cbn. scanned_fields. split; [exact Hpart | ]. right. split; [lia | ].
        split; [exact Hend | ]. right. exists d.
        repeat split; try lia; try assumption.
Qed.

Lemma scanStart_scanned (path : string) :
  scanned path (String.length path) scanStart.
Proof.
  split; [reflexivity | ]. now left.
Qed.

Lemma get_lt (i : nat) (s : string) (c : ascii) :
  String.get i s = Some c -> i < String.length s.
Proof.
  intros Hget. destruct (Nat.lt_ge_cases i (String.length s)) as [Hlt | Hge];
    [exact Hlt | ].
  rewrite (get_None_ge i s Hge) in Hget. discriminate.
Qed.

(** The extension of a path without a slash, when it is not empty, starts
    at a dot that is not the first character. *)
Lemma extname_nonempty (path : string) :
  hasChar "/" path = false ->
  extname path <> "" ->
  exists d,
    0 < d < String.length path /\
    String.get d path = Some "."%char /\
    extname path = substring d (String.length path - d) path.
Proof.
  intros Hno Hext.
  pose proof (extname_scan_scanned path Hno (String.length path) scanStart
                (le_n _) (scanStart_scanned path)) as Hfinal.
  unfold extname in *. fold scanStart in Hext |- *.
  destruct Hfinal
    as [Hpart [[Hlen Hst]
              | (Hlt & Hend & [(Hsd & _) | (d & Hsd & _ & Hget & _ & Hpds)])]].
  - rewrite Hst in Hext. now elim Hext.
  - rewrite Hsd in Hext. now elim Hext.
  - exists d. pose proof (get_lt d path _ Hget) as Hd.
    rewrite Hsd, Hend, Hpart in *.
    destruct (Z.eqb_spec (Z.of_nat d) (-1)) as [Hneg | _]; [lia | ].
    destruct (Z.eqb_spec (Z.of_nat (String.length path)) (-1)) as [Hneg | _]; [lia | ].
    destruct (Z.eqb_spec (preDotState (extname_scan path (String.length path) scanStart)) 0)
      as [Hzero | Hzero]; [now elim Hext | ].
    cbn [orb] in *.
    destruct (_ && _)%bool; [now elim Hext | ].
    rewrite Nat2Z.id.
    replace (Z.to_nat (Z.of_nat (String.length path) - Z.of_nat d))
      with (String.length path - d) by lia.
    repeat split; try assumption.
    destruct d as [ | d]; [ | lia].
    elim Hzero. now apply Hpds.
Qed.

(** The extension of a path without a slash starts at the last dot, when
    that dot is neither the first nor the last character. *)
Lemma extname_last_dot (path : string) (d : nat) :
  hasChar "/" path = false ->
  0 < d -> d + 1 < String.length path ->
  String.get d path = Some "."%char ->
  (forall j, d < j -> String.get j path <> Some "."%char) ->
  extname path = substring d (String.length path - d) path.
Proof.
  intros Hno Hpos Hlast Hget Hlater.
  pose proof (extname_scan_scanned path Hno (String.length path) scanStart
                (le_n _) (scanStart_scanned path)) as Hfinal.
  unfold extname. fold scanStart.
  destruct Hfinal
    as [Hpart [[Hlen Hst]
              | (Hlt & Hend & [(_ & _ & Hnone) | (d' & Hsd & _ & Hget' & Hlater' & Hpds)])]].
  - lia.
  - elim (Hnone d); [lia | exact Hget].
  - assert (Hsame : d' = d).
    { destruct (Nat.lt_trichotomy d' d) as [Hlt' | [Heq | Hgt]]; [ | exact Heq | ].
      - now elim (Hlater' d Hlt').
      - now elim (Hlater d' Hgt). }
    subst d'. rewrite Hsd, Hend, Hpart.
    destruct (Z.eqb_spec (Z.of_nat d) (-1)) as [Hneg | _]; [lia | ].
    destruct (Z.eqb_spec (Z.of_nat (String.length path)) (-1)) as [Hneg | _]; [lia | ].
    destruct (Z.eqb_spec (preDotState (extname_scan path (String.length path) scanStart)) 0)
      as [Hzero | _]; [apply Hpds in Hzero; lia | ].
    destruct (Z.eqb_spec (Z.of_nat d) (Z.of_nat (String.length path) - 1))
      as [Hend' | _]; [lia | ].
    rewrite andb_false_r. cbn [orb andb].
    rewrite Nat2Z.id. f_equal. lia.
Qed.

Lemma substring_prefix_length (d : nat) (s : string) :
  d <= String.length s -> String.length (substring 0 d s) = d.
Proof.
  revert d. induction s as [ | c r IH]; intros [ | d] Hd; cbn in *;
    try reflexivity; try lia.
  rewrite IH; lia.
Qed.

Lemma substring_prefix_suffix (d : nat) (s : string) :
  d <= String.length s ->
  substring 0 d s ++ substring d (String.length s - d) s = s.
Proof.
  revert d. induction s as [ | c r IH]; intros [ | d] Hd; cbn in *;
    try reflexivity; try lia.
  - f_equal. specialize (IH 0 (Nat.le_0_l _)).
    rewrite Nat.sub_0_r in IH. destruct r; [reflexivity | exact IH].
  - f_equal. apply IH. lia.
Qed.

Lemma substring_whole (s : string) : substring 0 (String.length s) s = s.
Proof.
  induction s as [ | c r IH]; cbn; [reflexivity | now rewrite IH].
Qed.

Lemma substring_suffix (a b : string) :
  substring (String.length a) (String.length b) (a ++ b) = b.
Proof.
  induction a as [ | c a IH]; cbn; [apply substring_whole | exact IH].
Qed.

Lemma append_length (a b : string) :
  String.length (a ++ b) = String.length a + String.length b.
Proof.
  induction a as [ | c a IH]; cbn; [reflexivity | now rewrite IH].
Qed.

Lemma get_append_r (a b : string) (j : nat) :
  String.get (String.length a + j) (a ++ b) = String.get j b.
Proof.
  induction a as [ | c a IH]; cbn; [reflexivity | exact IH].
Qed.

Lemma hasChar_dot_toLowerCase (s : string) :
  hasChar "." (toLowerCase s) = hasChar "." s.
Proof.
  induction s as [ | c r IH]; cbn; [reflexivity | ].
  now rewrite IH, toLowerCase_char_dot.
Qed.

(** What the allowed extensions have in common. *)
Lemma allowed_extension_shape (ext : string) :
  In (toLowerCase ext) IMAGE_EXTENSIONS ->
  exists e, ext = String "." e /\ hasChar "." e = false /\ 0 < String.length e.
Proof.
  intros Hin.
  destruct ext as [ | x e]; [cbn in Hin; intuition discriminate | ].
  exists e.
  assert (Hx : toLowerCase_char x = "."%char /\
               hasChar "." (toLowerCase e) = false /\
               0 < String.length (toLowerCase e)).
  { cbn in Hin.
    repeat (destruct Hin as [[= <- <-] | Hin]; [repeat split; cbn; lia | ]).
    contradiction. }
  destruct Hx as (Hx & Hdots & Hlen).
  rewrite hasChar_dot_toLowerCase in Hdots. rewrite toLowerCase_length in Hlen.
  repeat split; try assumption. f_equal.
  apply Ascii.eqb_eq. rewrite <- toLowerCase_char_dot, Hx. reflexivity.
Qed.

(** X14. Among the names without a slash, which the entries of a
    directory are, the images are exactly the names made of a stem that is
    not empty followed by [.jpg], [.jpeg], [.png], [.gif] or [.webp] in any
    case of letters.  So a name that is an extension and nothing else, as
    [.jpg], is not an image. *)
Theorem isImageFile_iff_stem_and_extension (file : string) :
  hasChar "/" file = false ->
  isImageFile file = true <->
  exists stem ext,
    file = stem ++ ext /\ stem <> "" /\
    In (toLowerCase ext) [".jpg"; ".jpeg"; ".png"; ".gif"; ".webp"].
Proof.
  intros Hno. unfold isImageFile, includes. rewrite existsb_exists. split.
  - intros (allowed & Hin & Heq). apply String.eqb_eq in Heq. subst allowed.
    assert (Hext : extname file <> "").
    { intros Hempty. rewrite Hempty in Hin. cbn in Hin. intuition discriminate. }
    destruct (extname_nonempty file Hno Hext) as (d & [Hpos Hlt] & _ & Hsub).
    exists (substring 0 d file), (extname file). repeat split.
    + rewrite Hsub. symmetry. apply substring_prefix_suffix. lia.
    + intros Hempty.
      assert (Hlen : String.length (substring 0 d file) = d)
        by (apply substring_prefix_length; lia).
      rewrite Hempty in Hlen. cbn in Hlen. lia.
    + exact Hin.
  - intros (stem & ext & -> & Hstem & Hin).
    destruct (allowed_extension_shape ext Hin) as (e & -> & Hdots & Hlen).
    assert (Hext : extname (stem ++ String "." e) = String "." e).
    { rewrite (extname_last_dot _ (String.length stem) Hno).
      - rewrite append_length.
        replace (String.length stem + String.length (String "." e) - String.length stem)
          with (String.length (String "." e)) by lia.
        apply substring_suffix.
      - destruct stem; [congruence | cbn; lia].
      - rewrite append_length. cbn. lia.
      - rewrite <- (Nat.add_0_r (String.length stem)) at 1.
        now rewrite get_append_r.
      - intros j Hj.
        replace j with (String.length stem + S (j - String.length stem - 1)) by lia.
        rewrite get_append_r. cbn. now apply hasChar_get. }
    exists (toLowerCase (String "." e)). rewrite Hext.
    split; [exact Hin | apply String.eqb_refl].
Qed.

Lemma isImageFile_iff_stem_and_extension_witness :
  isImageFile "..PNG" = true /\ isImageFile ".png" <> true.
Proof.
  split.
  - apply (proj2 (isImageFile_iff_stem_and_extension "..PNG" eq_refl)).
    exists ".", ".PNG". split; [reflexivity | split; [discriminate | ]].
    vm_compute. tauto.
  - intros Himage.
    destruct (proj1 (isImageFile_iff_stem_and_extension ".png" eq_refl) Himage)
      as (stem & ext & Hname & Hstem & Hin).
    destruct (allowed_extension_shape ext Hin) as (e & -> & _ & Hlen).
    destruct stem as [ | x stem]; [congruence | ].
    cbn [append] in Hname. injection Hname as _ Hname.
    do 3 (destruct stem as [ | ? stem]; cbn [append] in Hname;
          [congruence | injection Hname as _ Hname]).
    destruct stem; discriminate Hname.
Defined.

(** ** The month, written as a number *)

Lemma trimStart_digit (c : ascii) (r : string) :
  isDigit c = true -> trimStart (String c r) = String c r.
Proof.
  intros Hc. unfold isDigit in Hc.
  apply andb_true_iff in Hc as [Hlow Hhigh].
  apply N.leb_le in Hlow, Hhigh.
  cbn [trimStart].
  assert (H1 : isWhiteSpace1 c = false).
  { unfold isWhiteSpace1.
    destruct (N.leb_spec (code c) 13); [lia | ].
    destruct (N.eqb_spec (code c) 32); [lia | ].
    now rewrite andb_false_r. }
  rewrite H1. destruct r as [ | b r2]; [reflexivity | ].
  assert (H2 : isWhiteSpace2 c b = false).
  { unfold isWhiteSpace2. destruct (N.eqb_spec (code c) 194); [lia | reflexivity]. }
  rewrite H2. destruct r2 as [ | d r3]; [reflexivity | ].
  assert (H3 : isWhiteSpace3 c b d = false).
  { unfold isWhiteSpace3.
    destruct (N.eqb_spec (code c) 225); [lia | ].
    destruct (N.eqb_spec (code c) 226); [lia | ].
    destruct (N.eqb_spec (code c) 227); [lia | ].
    destruct (N.eqb_spec (code c) 239); [lia | ].
    reflexivity. }
  now rewrite H3.
Qed.

Lemma isDigit_not_letter (c : ascii) :
  isDigit c = true ->
  Ascii.eqb "-" c = false /\ Ascii.eqb "+" c = false /\
  Ascii.eqb "x" c = false /\ Ascii.eqb "X" c = false.
Proof.
  destruct c as [[ | ] [ | ] [ | ] [ | ] [ | ] [ | ] [ | ] [ | ]];
    cbn; intros Hc; try discriminate; repeat split.
Qed.

(** On a text of digits, [parseInt] reads the digits in radix ten. *)
Lemma parseInt_allDigits (s : string) :
  allDigits s = true -> s <> "" -> parseInt s = digits 10 None s.
Proof.
  intros Hall Hne. destruct s as [ | c r]; [congruence | ].
  cbn [allDigits] in Hall. apply andb_true_iff in Hall as [Hc Hr].
  unfold parseInt. rewrite (trimStart_digit c r Hc).
  destruct (isDigit_not_letter c Hc) as (Hminus & Hplus & _).
  cbn [startsWith]. rewrite Hminus, Hplus. cbn [andb orb].
  assert (Hprefix : (Ascii.eqb "0" c &&
                     match r with
                     | EmptyString => false
                     | String b s' => Ascii.eqb "x" b && true
                     end
                     || Ascii.eqb "0" c &&
                        match r with
                        | EmptyString => false
                        | String b s' => Ascii.eqb "X" b && true
                        end)%bool = false).
  { destruct r as [ | b r']; [now rewrite !andb_false_r | ].
    cbn [allDigits] in Hr. apply andb_true_iff in Hr as [Hb _].
    destruct (isDigit_not_letter b Hb) as (_ & _ & Hx & HX).
    rewrite Hx, HX. cbn. now rewrite !andb_false_r. }
  rewrite Hprefix.
  destruct (digits 10 None (String c r)) as [mathInt | ]; [ | reflexivity].
  f_equal. lia.
Qed.

Lemma digits_numeral (u : Decimal.uint) (a : nat) :
  digits 10 (Some (Z.of_nat a)) (NilEmpty.string_of_uint u) =
  Some (Z.of_nat (Nat.of_uint_acc u a)).
Proof.
  revert a.
  induction u as [ | u IH | u IH | u IH | u IH | u IH | u IH | u IH | u IH | u IH | u IH];
    intros a; [reflexivity | .. ];
    cbn [NilEmpty.string_of_uint digits Nat.of_uint_acc];
    rewrite Nat.tail_mul_spec;
    match goal with
    | |- context [digitValue ?c] =>
        let v := eval vm_compute in (digitValue c) in
        change (digitValue c) with v
    end; cbv iota beta;
    match goal with
    | |- context [(?d <? 10)%Z] => change (d <? 10)%Z with true
    end; cbv iota.
  all: match goal with
       | |- digits _ (Some ?v) _ = Some (Z.of_nat (Nat.of_uint_acc _ ?b)) =>
           replace v with (Z.of_nat b) by lia
       end; apply IH.
Qed.

Lemma digits_zeros (k : nat) (s : string) :
  digits 10 (Some 0%Z) (zeros k ++ s) = digits 10 (Some 0%Z) s.
Proof.
  induction k as [ | k IH]; [reflexivity | exact IH].
Qed.

Lemma digitValue_digit (c : ascii) :
  isDigit c = true ->
  exists d, digitValue c = Some d /\ (d <? 10)%Z = true.
Proof.
  destruct c as [[ | ] [ | ] [ | ] [ | ] [ | ] [ | ] [ | ] [ | ]];
    cbn; intros Hc; try discriminate;
    eexists; (split; [vm_compute; reflexivity | reflexivity]).
Qed.

Lemma digits_from_nothing (s : string) :
  s <> "" -> allDigits s = true ->
  digits 10 None s = digits 10 (Some 0%Z) s.
Proof.
  intros Hne Hall. destruct s as [ | c r]; [congruence | ].
  cbn [allDigits] in Hall. apply andb_true_iff in Hall as [Hc _].
  destruct (digitValue_digit c Hc) as (d & Hd & Hlt).
  cbn [digits]. now rewrite Hd, Hlt.
Qed.

Lemma allDigits_app (a b : string) :
  allDigits (a ++ b) = allDigits a && allDigits b.
Proof.
  induction a as [ | c a IH]; cbn; [reflexivity | ].
  now rewrite IH, andb_assoc.
Qed.

Lemma allDigits_zeros (k : nat) : allDigits (zeros k) = true.
Proof.
  induction k as [ | k IH]; [reflexivity | exact IH].
Qed.

Lemma allDigits_numeral (u : Decimal.uint) :
  allDigits (NilEmpty.string_of_uint u) = true.
Proof.
  induction u; cbn; auto.
Qed.

Lemma revapp_not_Nil (d acc : Decimal.uint) :
  acc <> Decimal.Nil -> Decimal.revapp d acc <> Decimal.Nil.
Proof.
  revert acc. induction d; intros acc Hacc; cbn; try apply IHd; congruence.
Qed.

Lemma to_little_uint_not_Nil (n : nat) (acc : Decimal.uint) :
  acc <> Decimal.Nil -> Nat.to_little_uint n acc <> Decimal.Nil.
Proof.
  revert acc. induction n as [ | n IH]; intros acc Hacc; [exact Hacc | ].
  cbn. apply IH. destruct acc; cbn; congruence.
Qed.

Lemma length_toString_not_empty (n : nat) : length_toString n <> "".
Proof.
  unfold length_toString, Nat.to_uint, Decimal.rev.
  pose proof (to_little_uint_not_Nil n Decimal.zero) as Hlittle.
  destruct (Nat.to_little_uint n Decimal.zero) as [ | d | d | d | d | d | d | d | d | d | d];
    [now elim Hlittle | .. ]; cbn [Decimal.revapp];
    match goal with
    | |- NilEmpty.string_of_uint (Decimal.revapp _ ?acc) <> _ =>
        pose proof (revapp_not_Nil d acc) as Hrev;
        destruct (Decimal.revapp d acc); [now elim Hrev | .. ]; discriminate
    end.
Qed.

(** On a decimal numeral, with or without zeros in front, [parseInt]
    gives the number. *)
Lemma parseInt_numeral (k n : nat) :
  parseInt (zeros k ++ length_toString n) = Some (Z.of_nat n).
Proof.
  assert (Hall : allDigits (zeros k ++ length_toString n) = true).
  { rewrite allDigits_app, allDigits_zeros. apply allDigits_numeral. }
  assert (Hne : zeros k ++ length_toString n <> "").
  { intros Hempty. apply append_empty in Hempty as [_ Hempty].
    now apply length_toString_not_empty in Hempty. }
  rewrite (parseInt_allDigits _ Hall Hne), (digits_from_nothing _ Hne Hall).
  rewrite digits_zeros. unfold length_toString.
  change 0%Z with (Z.of_nat 0). rewrite digits_numeral.
  change (Nat.of_uint_acc (Nat.to_uint n) 0) with (Nat.of_uint (Nat.to_uint n)).
  now rewrite DecimalNat.Unsigned.of_to.
Qed.

(** X15. A second part that is the decimal numeral of a number, with or
    without zeros in front, is read as that number: from 1 to 12 the month
    is the name at that place of the table, January being the first;
    for zero and from 13 on the month is the second part as it stands. *)
Theorem monthName_of_numeral (k n : nat) :
  let month := zeros k ++ length_toString n in
  (1 <= n <= 12 ->
   exists name,
     nth_error monthNames (n - 1) = Some name /\ monthName (Some month) = Some name) /\
  (n = 0 \/ 12 < n -> monthName (Some month) = Some month).
Proof.
  cbv zeta. split.
  - intros Hn.
    destruct (monthName_in_range (zeros k ++ length_toString n) (Z.of_nat n)
                (parseInt_numeral k n)) as (name & Hnth & Hname); [lia | ].
    exists name. split; [ | exact Hname].
    rewrite <- Hnth. f_equal. lia.
  - intros Hn. apply monthName_fallback. right.
    exists (Z.of_nat n). split; [apply parseInt_numeral | lia].
Qed.

Lemma monthName_of_numeral_witness :
  monthName (Some "007") = Some "July" /\ monthName (Some "13") = Some "13".
Proof.
  split.
  - destruct (proj1 (monthName_of_numeral 2 7)) as (name & Hnth & Hname); [lia | ].
    injection Hnth as <-. exact Hname.
  - apply (proj2 (monthName_of_numeral 0 13)). right. lia.
Defined.
